(** * MrDaniel: news retrieval and analyst chat orchestration

    A shallow embedding of the logic of [src/index.tsx]: the two
    request/response cycles against the generative-language provider
    ([fetchNews], [handleChat]), the category selection effect and the
    report exporter ([exportCSV]).

    Conventions.
    - A JavaScript string is a [string]; non-ASCII text is kept as its
      UTF-8 bytes.  The program only concatenates, trims and tests strings
      for emptiness.
    - React state ([useState]) and the [useRef] cell are the fields of the
      record [AppState]; a handler is a function on that record.  An [async]
      handler is cut at its single [await]: the part that runs when the
      handler is invoked ([fetchNews], [handleChat]) and the part that runs
      when the awaited provider call settles ([fetchNews_settled],
      [handleChat_settled]).
    - What a handler does to the outside world (provider calls, console
      diagnostics, the file download) is appended to a log of [Effect]s.
    - Browser and SDK built-ins whose text the repository does not contain
      ([JSON.parse], the [Date] formatters) are variables of the section
      [App].
    - An API key is configured: constructing the SDK client and creating
      the chat session do not throw.  The only provider operations that can
      fail are the two awaited calls, [generateContent] and [sendMessage].
    - Display-only state (the locale bundle, the item shown in the
      traceability dialog, the scroll anchor) is left out. *)

From Stdlib Require Import ZArith Ascii String DecimalString DecimalPos DecimalZ.
From stdpp Require Import base option list strings gmap.

Local Open Scope string_scope.
Local Open Scope list_scope.

(** ** JavaScript strings *)

Module JsString.

Definition byte (n : nat) : ascii := Ascii.ascii_of_nat n.

(** The double-quote character, U+0022. *)
Definition dquote : string := String (byte 34) "".

(** The line feed used by template literals that span several lines and by
    [join("\n")]. *)
Definition nl : string := String (byte 10) "".

(** A string is read as a sequence of code points: a byte of the form
    10xxxxxx continues the code point opened before it. *)
Definition is_continuation (a : ascii) : bool :=
  let n := nat_of_ascii a in (128 <=? n)%nat && (n <=? 191)%nat.

Definition starts_with_continuation (s : string) : bool :=
  match s with
  | String a _ => is_continuation a
  | "" => false
  end.

Fixpoint code_points (s : string) : list string :=
  match s with
  | "" => []
  | String a rest =>
      match code_points rest with
      | cp :: cps =>
          if starts_with_continuation cp then String a cp :: cps
          else String a "" :: cp :: cps
      | [] => [String a ""]
      end
  end.

Definition bytes_of (s : string) : list nat :=
  map nat_of_ascii (list_ascii_of_string s).

(** ECMAScript WhiteSpace and LineTerminator code points, the ones
    [String.prototype.trim] removes: U+0009..U+000D, U+0020, U+00A0,
    U+1680, U+2000..U+200A, U+2028, U+2029, U+202F, U+205F, U+3000 and
    U+FEFF. *)
Definition is_white_space (cp : string) : bool :=
  match bytes_of cp with
  | [n] => (9 <=? n)%nat && (n <=? 13)%nat || (n =? 32)%nat
  | [194; 160] => true
  | [225; 154; 128] => true
  | [226; 128; k] =>
      (128 <=? k)%nat && (k <=? 138)%nat
      || (k =? 168)%nat || (k =? 169)%nat || (k =? 175)%nat
  | [226; 129; 159] => true
  | [227; 128; 128] => true
  | [239; 187; 191] => true
  | _ => false
  end.

Fixpoint drop_while {A} (p : A -> bool) (l : list A) : list A :=
  match l with
  | x :: l' => if p x then drop_while p l' else l
  | [] => []
  end.

Definition join_points (cps : list string) : string :=
  fold_right String.append "" cps.

(** [String.prototype.trim]. *)
Definition trim (s : string) : string :=
  join_points
    (rev (drop_while is_white_space
            (rev (drop_while is_white_space (code_points s))))).

(** JavaScript truthiness of a string: non-empty. *)
Definition truthy (s : string) : bool :=
  match s with "" => false | _ => true end.

(** [Number.prototype.toString] of an integer time value. *)
Definition of_Z (z : Z) : string := NilZero.string_of_int (Z.to_int z).

(** [String(i)] for an array index. *)
Definition of_nat (n : nat) : string := of_Z (Z.of_nat n).

End JsString.

Import JsString.

(** ** JavaScript values *)

(** The values [JSON.parse] produces.  A number is kept as the text
    [Number.prototype.toString] gives it (the program never computes with a
    parsed number); an object is a finite map from property names to values.
    [undefined] is the [None] of [option json]. *)
#[local] Set Warnings "-register-all".
Inductive json : Type :=
| JNull
| JBool (b : bool)
| JNum (shown : string)
| JStr (s : string)
| JArr (items : list json)
| JObj (props : gmap string json).

Module Js.

(** [ToBoolean]. *)
Definition truthy (v : option json) : bool :=
  match v with
  | None | Some JNull => false
  | Some (JBool b) => b
  | Some (JNum shown) => negb (String.eqb shown "0")
  | Some (JStr s) => JsString.truthy s
  | Some (JArr _) | Some (JObj _) => true
  end.

(** [ToString] on parsed values; an array is rendered by
    [Array.prototype.join], which shows [null] as the empty string. *)
Fixpoint to_string (v : json) : string :=
  match v with
  | JNull => "null"
  | JBool true => "true"
  | JBool false => "false"
  | JNum shown => shown
  | JStr s => s
  | JArr items =>
      String.concat ","
        (map (fun x => match x with JNull => "" | _ => to_string x end) items)
  | JObj _ => "[object Object]"
  end.

(** [ToString] as a template literal applies it. *)
Definition template (v : option json) : string :=
  match v with
  | None => "undefined"
  | Some x => to_string x
  end.

(** [Array.prototype.join]: [undefined] and [null] elements give the empty
    string. *)
Definition join (sep : string) (cells : list (option json)) : string :=
  String.concat sep
    (map (fun c => match c with
                   | None | Some JNull => ""
                   | Some x => to_string x
                   end) cells).

(** The own enumerable properties an object spread [{...v}] copies: those
    of an object, the elements of an array under their indices, the
    characters of a string under theirs (one per byte here), none for
    [null], a boolean or a number. *)
Definition own_properties (v : json) : gmap string json :=
  match v with
  | JObj props => props
  | JArr items => list_to_map (imap (fun i x => (of_nat i, x)) items)
  | JStr s =>
      list_to_map
        (imap (fun i a => (of_nat i, JStr (String a ""))) (list_ascii_of_string s))
  | JNull | JBool _ | JNum _ => ∅
  end.

Inductive Error : Type :=
| SyntaxError
| TypeError
| ProviderError (reason : string).

(** How an evaluation ends: normally with a value, or abruptly with a
    thrown error. *)
Inductive Completion (A : Type) : Type :=
| Normal (a : A)
| Throw (e : Error).
Arguments Normal {A} a.
Arguments Throw {A} e.

Definition bind {A B} (c : Completion A) (k : A -> Completion B) : Completion B :=
  match c with
  | Normal a => k a
  | Throw e => Throw e
  end.

(** How an awaited promise settles. *)
Inductive Settled (A : Type) : Type :=
| Fulfilled (a : A)
| Rejected (e : Error).
Arguments Fulfilled {A} a.
Arguments Rejected {A} e.

(** [await p] inside a [try] block. *)
Definition await {A} (p : Settled A) : Completion A :=
  match p with
  | Fulfilled a => Normal a
  | Rejected e => Throw e
  end.

End Js.

(** Sequencing inside a [try] block, written [x ← c; k]. *)
#[global] Instance Completion_bind : MBind Js.Completion :=
  fun A B k c => Js.bind c k.

(** ** Data model *)

(** [interface ChatMessage]. *)
Inductive Role : Type := user | model.

(** The text of a reply is [response.text], which the SDK leaves
    [undefined] when the reply has no text part. *)
Record ChatMessage : Type := { role : Role; text : option string }.

(** [interface NewsItem], the shape the response schema asks the provider
    for. *)
Record Citation : Type := { uri : string; citation_title : option string }.

Record NewsItem : Type := {
  id : string;
  title : string;
  summary : string;
  sources : list string;
  url : string;
  timestamp : string;
  category : string;
  isVerified : bool;
  verificationDetails : string;
  groundingSources : option (list Citation)
}.

Definition Citation_value (c : Citation) : json :=
  JObj (match citation_title c with
        | Some t => <["title" := JStr t]> {["uri" := JStr (uri c)]}
        | None => {["uri" := JStr (uri c)]}
        end).

(** The object a well-typed [NewsItem] is at run time. *)
Definition NewsItem_object (n : NewsItem) : gmap string json :=
  let fields : gmap string json :=
    <["id" := JStr (id n)]>
    (<["title" := JStr (title n)]>
    (<["summary" := JStr (summary n)]>
    (<["sources" := JArr (map JStr (sources n))]>
    (<["url" := JStr (url n)]>
    (<["timestamp" := JStr (timestamp n)]>
    (<["category" := JStr (category n)]>
    (<["isVerified" := JBool (isVerified n)]>
    (<["verificationDetails" := JStr (verificationDetails n)]> ∅)))))))) in
  match groundingSources n with
  | Some cs => <["groundingSources" := JArr (map Citation_value cs)]> fields
  | None => fields
  end.

Definition CATEGORY_LIST : list string :=
  ["General"; "Política"; "Economía"; "Internacional"; "Seguridad"; "Salud";
   "Energía"; "Crisis"].

(** The part of the SDK's [GenerateContentResponse] the program reads. *)
Record GroundingChunk : Type := { web : option json }.
Record GroundingMetadata : Type := { groundingChunks : option (list GroundingChunk) }.
Record Candidate : Type := { groundingMetadata : option GroundingMetadata }.
Record GenerateContentResponse : Type := {
  candidates : option (list Candidate);
  response_text : option string
}.

(** The session object [ai.chats.create] returns, identified by the
    configuration it was created with.  The conversation history it keeps is
    internal to the SDK. *)
Record Chat : Type := { chat_model : string; chat_systemInstruction : string }.

(** What the handlers read from the browser when they run: the clock
    ([new Date()], as epoch milliseconds) and [navigator.language]. *)
Record Env : Type := { now : Z; language : string }.

Inductive View : Type := NewsView | ChatView.

(** The [useState] cells and the [useRef] cell of [MrDanielApp] that the
    orchestration reads or writes. *)
Record AppState : Type := {
  activeView : View;
  isDrawerOpen : bool;
  selectedCategory : string;
  news : list (gmap string json);
  loading : bool;
  lastSync : Z;
  chatMessages : list ChatMessage;
  input : string;
  isTyping : bool;
  chatInstance : option Chat
}.

(** What reaches the outside world. *)
Inductive Effect : Type :=
| GenerateContent (model_name : string) (prompt : string)
| ChatsCreate (model_name : string) (systemInstruction : string)
| SendMessage (chat : Chat) (message : string)
| ConsoleError (label : string) (err : Js.Error)
| Download (filename : string) (mime : string) (content : string)
| UnhandledRejection (err : Js.Error).

(** The running page: the component state, the log of effects so far, and
    the number of provider calls that have been issued and have not settled
    yet. *)
Record World : Type := {
  app : AppState;
  log : list Effect;
  newsInFlight : nat;
  chatInFlight : nat
}.

(** *** State setters *)

Definition with_app (f : AppState -> AppState) (w : World) : World :=
  {| app := f (app w); log := log w;
     newsInFlight := newsInFlight w; chatInFlight := chatInFlight w |}.

Definition emit (e : Effect) (w : World) : World :=
  {| app := app w; log := log w ++ [e];
     newsInFlight := newsInFlight w; chatInFlight := chatInFlight w |}.

Definition setActiveView (v : View) : World -> World :=
  with_app (fun s =>
    {| activeView := v; isDrawerOpen := isDrawerOpen s;
       selectedCategory := selectedCategory s; news := news s; loading := loading s;
       lastSync := lastSync s; chatMessages := chatMessages s; input := input s;
       isTyping := isTyping s; chatInstance := chatInstance s |}).

Definition setIsDrawerOpen (b : bool) : World -> World :=
  with_app (fun s =>
    {| activeView := activeView s; isDrawerOpen := b;
       selectedCategory := selectedCategory s; news := news s; loading := loading s;
       lastSync := lastSync s; chatMessages := chatMessages s; input := input s;
       isTyping := isTyping s; chatInstance := chatInstance s |}).

Definition setSelectedCategory (c : string) : World -> World :=
  with_app (fun s =>
    {| activeView := activeView s; isDrawerOpen := isDrawerOpen s;
       selectedCategory := c; news := news s; loading := loading s;
       lastSync := lastSync s; chatMessages := chatMessages s; input := input s;
       isTyping := isTyping s; chatInstance := chatInstance s |}).

Definition setNews (l : list (gmap string json)) : World -> World :=
  with_app (fun s =>
    {| activeView := activeView s; isDrawerOpen := isDrawerOpen s;
       selectedCategory := selectedCategory s; news := l; loading := loading s;
       lastSync := lastSync s; chatMessages := chatMessages s; input := input s;
       isTyping := isTyping s; chatInstance := chatInstance s |}).

Definition setLoading (b : bool) : World -> World :=
  with_app (fun s =>
    {| activeView := activeView s; isDrawerOpen := isDrawerOpen s;
       selectedCategory := selectedCategory s; news := news s; loading := b;
       lastSync := lastSync s; chatMessages := chatMessages s; input := input s;
       isTyping := isTyping s; chatInstance := chatInstance s |}).

Definition setLastSync (t : Z) : World -> World :=
  with_app (fun s =>
    {| activeView := activeView s; isDrawerOpen := isDrawerOpen s;
       selectedCategory := selectedCategory s; news := news s; loading := loading s;
       lastSync := t; chatMessages := chatMessages s; input := input s;
       isTyping := isTyping s; chatInstance := chatInstance s |}).

(** [setChatMessages(prev => f(prev))]. *)
Definition setChatMessages (f : list ChatMessage -> list ChatMessage) : World -> World :=
  with_app (fun s =>
    {| activeView := activeView s; isDrawerOpen := isDrawerOpen s;
       selectedCategory := selectedCategory s; news := news s; loading := loading s;
       lastSync := lastSync s; chatMessages := f (chatMessages s); input := input s;
       isTyping := isTyping s; chatInstance := chatInstance s |}).

Definition setInput (v : string) : World -> World :=
  with_app (fun s =>
    {| activeView := activeView s; isDrawerOpen := isDrawerOpen s;
       selectedCategory := selectedCategory s; news := news s; loading := loading s;
       lastSync := lastSync s; chatMessages := chatMessages s; input := v;
       isTyping := isTyping s; chatInstance := chatInstance s |}).

Definition setIsTyping (b : bool) : World -> World :=
  with_app (fun s =>
    {| activeView := activeView s; isDrawerOpen := isDrawerOpen s;
       selectedCategory := selectedCategory s; news := news s; loading := loading s;
       lastSync := lastSync s; chatMessages := chatMessages s; input := input s;
       isTyping := b; chatInstance := chatInstance s |}).

(** [chatInstance.current = c]. *)
Definition setChatInstance (c : Chat) : World -> World :=
  with_app (fun s =>
    {| activeView := activeView s; isDrawerOpen := isDrawerOpen s;
       selectedCategory := selectedCategory s; news := news s; loading := loading s;
       lastSync := lastSync s; chatMessages := chatMessages s; input := input s;
       isTyping := isTyping s; chatInstance := Some c |}).

(** A provider call has been issued and its promise is pending. *)
Definition news_call_issued (w : World) : World :=
  {| app := app w; log := log w;
     newsInFlight := S (newsInFlight w); chatInFlight := chatInFlight w |}.

Definition news_call_settled (w : World) : World :=
  {| app := app w; log := log w;
     newsInFlight := pred (newsInFlight w); chatInFlight := chatInFlight w |}.

Definition chat_call_issued (w : World) : World :=
  {| app := app w; log := log w;
     newsInFlight := newsInFlight w; chatInFlight := S (chatInFlight w) |}.

Definition chat_call_settled (w : World) : World :=
  {| app := app w; log := log w;
     newsInFlight := newsInFlight w; chatInFlight := pred (chatInFlight w) |}.

(** ** The application *)

Definition MODEL : string := "gemini-3-flash-preview".

Definition initial (env : Env) : World :=
  {| app := {| activeView := NewsView; isDrawerOpen := false;
               selectedCategory := "General"; news := []; loading := true;
               lastSync := now env; chatMessages := []; input := "";
               isTyping := false; chatInstance := None |};
     log := []; newsInFlight := 0; chatInFlight := 0 |}.

(** [.filter(Boolean)] on the array [.map(c => c.web)] built. *)
Fixpoint filter_Boolean (l : list (option json)) : list json :=
  match l with
  | [] => []
  | Some v :: l' => if Js.truthy (Some v) then v :: filter_Boolean l' else filter_Boolean l'
  | None :: l' => filter_Boolean l'
  end.

(** [response.candidates?.[0]?.groundingMetadata?.groundingChunks
      ?.map((c: any) => c.web).filter(Boolean) || []]. *)
Definition grounding_of (response : GenerateContentResponse) : json :=
  let chunks : option (list GroundingChunk) :=
    cs ← candidates response;
    c0 ← head cs;
    gm ← groundingMetadata c0;
    groundingChunks gm in
  match chunks with
  | Some chunks => JArr (filter_Boolean (map web chunks))
  | None => JArr []
  end.

(** [response.text || "[]"]. *)
Definition text_or_empty_array (response : GenerateContentResponse) : string :=
  match response_text response with
  | Some t => if JsString.truthy t then t else "[]"
  | None => "[]"
  end.

(** [{ ...item, groundingSources: grounding }]. *)
Definition annotate (grounding : json) (item : json) : gmap string json :=
  <["groundingSources" := grounding]> (Js.own_properties item).

(** [[header, ...news.map(n => [...])].map(e => e.join(",")).join("\n")]
    of [exportCSV]. *)
Definition csv_row (n : gmap string json) : list (option json) :=
  [ Some (JStr (dquote +:+ Js.template (n !! "title") +:+ dquote));
    n !! "category";
    Some (JStr (if Js.truthy (n !! "isVerified") then "YES" else "NO"));
    n !! "timestamp";
    n !! "url" ].

Definition csv_header : list (option json) :=
  [ Some (JStr "Title"); Some (JStr "Category"); Some (JStr "Verified");
    Some (JStr "Time"); Some (JStr "URL") ].

Definition csv_of (items : list (gmap string json)) : string :=
  String.concat nl (map (Js.join ",") (csv_header :: map csv_row items)).

Definition report_filename (env : Env) : string :=
  "MrDaniel_Report_" +:+ of_Z (now env) +:+ ".csv".

Definition exportCSV (env : Env) (w : World) : World :=
  let csv := csv_of (news (app w)) in
  emit (Download (report_filename env) "text/csv" csv) w.

(** The promise an [async] handler returns has nobody awaiting it: a
    rejection would surface as an unhandled rejection. *)
Definition detach (r : World * Js.Completion unit) : World :=
  match r with
  | (w, Js.Normal _) => w
  | (w, Js.Throw e) => emit (UnhandledRejection e) w
  end.

Section App.

(** [JSON.parse]; [None] stands for the [SyntaxError] it throws. *)
Variable JSON_parse : string -> option json.

(** [Date.prototype.toISOString], and [toLocaleDateString] and
    [toLocaleTimeString] with the options [handleChat] passes, as functions
    of the locale tag and the time value. *)
Variable toISOString : Z -> string.
Variable toLocaleDateString : string -> Z -> string.
Variable toLocaleTimeString : string -> Z -> string.

(** *** News retrieval *)

Definition news_prompt (env : Env) (cat : string) : string :=
  let langCode := language env in
  "Act as MrDaniel, God-Level News AI. Retrieve 8 most recent verified news items for " +:+
  dquote +:+ cat +:+ dquote +:+ " in " +:+ langCode +:+ "." +:+ nl +:+
  "    MANDATORY RULES: " +:+ nl +:+
  "    - ONLY confirmed facts. Current date: " +:+ toISOString (now env) +:+ "." +:+ nl +:+
  "    - Double source rule (isVerified=true only if 2+ major outlets)." +:+ nl +:+
  "    - Tone: Professional, zero opinion." +:+ nl +:+
  "    - Response: JSON array of objects." +:+ nl +:+
  "    - Fields: id, title, summary, sources (array), url, timestamp, category, isVerified (boolean), verificationDetails.".

(** [fetchNews(cat)] up to its [await]. *)
Definition fetchNews (env : Env) (cat : string) (w : World) : World :=
  let w := setLoading true w in
  let prompt := news_prompt env cat in
  news_call_issued (emit (GenerateContent MODEL prompt) w).

(** The body of the [try] block once [generateContent] has settled. *)
Definition fetchNews_try (p : Js.Settled GenerateContentResponse)
  : Js.Completion (list (gmap string json)) :=
  response ← Js.await p;
  let grounding := grounding_of response in
  parsed ← match JSON_parse (text_or_empty_array response) with
           | Some v => Js.Normal v
           | None => Js.Throw Js.SyntaxError
           end;
  match parsed with
  | JArr items => Js.Normal (map (annotate grounding) items)
  | _ => Js.Throw Js.TypeError
  end.

(** [fetchNews] from the settlement of its [await] on. *)
Definition fetchNews_settled (env : Env) (p : Js.Settled GenerateContentResponse)
    (w : World) : World * Js.Completion unit :=
  let w := news_call_settled w in
  let w :=
    match fetchNews_try p with
    | Js.Normal data => setLastSync (now env) (setNews data w)
    | Js.Throw err => emit (ConsoleError "Critical news engine failure:" err) w
    end in
  (setLoading false w, Js.Normal ()).

(** The drawer's category button, followed by the effect
    [useEffect(() => fetchNews(selectedCategory), [selectedCategory, fetchNews])],
    which React runs again only when a dependency changed ([fetchNews] is
    memoised with no dependencies and never changes). *)
Definition selectCategory (env : Env) (cat : string) (w : World) : World :=
  let previous := selectedCategory (app w) in
  let w := setIsDrawerOpen false (setActiveView NewsView (setSelectedCategory cat w)) in
  if String.eqb previous cat then w else fetchNews env (selectedCategory (app w)) w.

(** The refresh button. *)
Definition refresh (env : Env) (w : World) : World :=
  fetchNews env (selectedCategory (app w)) w.

(** First render: the effect runs once for the initial category. *)
Definition mount (env : Env) : World :=
  fetchNews env (selectedCategory (app (initial env))) (initial env).

(** *** Analyst chat *)

Record TemporalContext : Type := { fullDate : string; exactTime : string; iso : string }.

Definition system_instruction (env : Env) : string :=
  let temporalContext :=
    {| fullDate := toLocaleDateString (language env) (now env);
       exactTime := toLocaleTimeString (language env) (now env);
       iso := toISOString (now env) |} in
  "Eres MrDaniel, el analista de noticias y auditor de realidad más avanzado del mundo. " +:+ nl +:+
  "    Tu nivel de consciencia temporal es ABSOLUTO. No solo sabes el año, conoces el segundo exacto." +:+ nl +:+
  nl +:+
  "    CONTEXTO TEMPORAL ACTUAL (CRÍTICO):" +:+ nl +:+
  "    - Fecha: " +:+ fullDate temporalContext +:+ nl +:+
  "    - Hora Exacta: " +:+ exactTime temporalContext +:+ nl +:+
  "    - Timestamp: " +:+ iso temporalContext +:+ nl +:+
  nl +:+
  "    FORMA DE SER Y REDACTAR (ADN MRDANIEL):" +:+ nl +:+
  "    - HUMANO Y PROFESIONAL: Escribe con la elegancia de un periodista de élite y la calidez de un mentor experto. Evita muletillas de IA (" +:+
  dquote +:+ "Entiendo tu pregunta" +:+ dquote +:+ ", " +:+ dquote +:+
  "Como modelo de lenguaje" +:+ dquote +:+ "). Ve directo al grano con empatía." +:+ nl +:+
  "    - REDACCIÓN LIMPIA: Usa párrafos cortos, estructura impecable y un léxico rico pero accesible." +:+ nl +:+
  "    - SINCRONIZACIÓN LIVE: Estás conectado al flujo global de MrDaniel. Si algo ocurrió hace 10 segundos, DEBES saberlo. Usa tu herramienta de búsqueda (Google Search) en CADA respuesta para validar la actualidad." +:+ nl +:+
  "    - PRECISIÓN QUIRÚRGICA: Si un dato no está verificado al 100%, dilo: " +:+ dquote +:+
  "Estamos en proceso de auditoría para este hecho específico" +:+ dquote +:+
  ". No especules jamás." +:+ nl +:+
  "    - IDIOMA: Responde siempre en el idioma que te hablen (prioridad: " +:+ language env +:+
  ")." +:+ nl +:+
  nl +:+
  "    TU MISIÓN: Ayudar al usuario a navegar la complejidad del mundo actual con datos fríos, contexto histórico y una visión humana. Eres el filtro definitivo entre el ruido y la verdad.".

(** [if (!chatInstance.current) chatInstance.current = ai.chats.create(...)];
    the result carries the session the turn then uses. *)
Definition ensure_chat (systemInstruction : string) (w : World) : World * Chat :=
  match chatInstance (app w) with
  | Some c => (w, c)
  | None =>
      let c := {| chat_model := MODEL; chat_systemInstruction := systemInstruction |} in
      (setChatInstance c (emit (ChatsCreate MODEL systemInstruction) w), c)
  end.

(** [handleChat()] up to its [await].  [input] and [isTyping] are the values
    of the render the handler belongs to; React renders between two user
    events, so these are the current ones. *)
Definition handleChat (env : Env) (w : World) : World :=
  let input := input (app w) in
  if negb (JsString.truthy (trim input)) || isTyping (app w) then w
  else
    let userMsg := {| role := user; text := Some input |} in
    let w := setChatMessages (fun prev => prev ++ [userMsg]) w in
    let w := setInput "" w in
    let w := setIsTyping true w in
    let systemInstruction := system_instruction env in
    let '(w, chat) := ensure_chat systemInstruction w in
    chat_call_issued (emit (SendMessage chat input) w).

(** [handleChat] from the settlement of [sendMessage] on. *)
Definition handleChat_settled (p : Js.Settled GenerateContentResponse)
    (w : World) : World * Js.Completion unit :=
  let w := chat_call_settled w in
  let w :=
    match Js.await p with
    | Js.Normal response =>
        setChatMessages
          (fun prev => prev ++ [{| role := model; text := response_text response |}]) w
    | Js.Throw err => emit (ConsoleError "Chat engine failure:" err) w
    end in
  (setIsTyping false w, Js.Normal ()).

(** *** The page as a transition system *)

(** What can happen to the mounted page: a user gesture, or the settlement
    of a provider call that is in flight. *)
Inductive Event : Type :=
| SelectCategory (env : Env) (cat : string)
| Refresh (env : Env)
| NewsSettled (env : Env) (p : Js.Settled GenerateContentResponse)
| ChangeInput (value : string)
| Submit (env : Env)
| ChatSettled (p : Js.Settled GenerateContentResponse)
| Export (env : Env).

Definition step (w : World) (e : Event) : World :=
  match e with
  | SelectCategory env cat => selectCategory env cat w
  | Refresh env => refresh env w
  | NewsSettled env p =>
      match newsInFlight w with
      | O => w
      | S _ => detach (fetchNews_settled env p w)
      end
  | ChangeInput value => setInput value w
  | Submit env => handleChat env w
  | ChatSettled p =>
      match chatInFlight w with
      | O => w
      | S _ => detach (handleChat_settled p w)
      end
  | Export env => exportCSV env w
  end.

Definition run (w : World) (events : list Event) : World :=
  fold_left step events w.

End App.

Arguments news_prompt : simpl never.
Arguments system_instruction : simpl never.

(** ** Vocabulary of the properties *)

(** [needle] occurs in [hay]. *)
Definition Contains (hay needle : string) : Prop :=
  exists before after, hay = before +:+ needle +:+ after.

(** The empty string, or a string made of white space only. *)
Definition whitespace_only (s : string) : Prop :=
  Forall (fun cp => is_white_space cp = true) (code_points s).

(** A retrieval fails: the provider call throws, or [JSON.parse] throws on
    the text it is handed. *)
Definition retrieval_fails (JSON_parse : string -> option json)
    (p : Js.Settled GenerateContentResponse) : Prop :=
  match p with
  | Js.Rejected _ => True
  | Js.Fulfilled response => JSON_parse (text_or_empty_array response) = None
  end.

(** The prompts of the news retrieval calls in a log, oldest first. *)
Fixpoint retrievals (l : list Effect) : list string :=
  match l with
  | GenerateContent _ prompt :: l' => prompt :: retrievals l'
  | _ :: l' => retrievals l'
  | [] => []
  end.

(** The system instructions of the chat sessions created in a log. *)
Fixpoint creations (l : list Effect) : list string :=
  match l with
  | ChatsCreate _ instruction :: l' => instruction :: creations l'
  | _ :: l' => creations l'
  | [] => []
  end.

(** The sessions the chat messages of a log were sent on. *)
Fixpoint sessions_used (l : list Effect) : list Chat :=
  match l with
  | SendMessage chat _ :: l' => chat :: sessions_used l'
  | _ :: l' => sessions_used l'
  | [] => []
  end.

(** The calls to the provider in a log. *)
Definition is_provider_call (e : Effect) : bool :=
  match e with
  | GenerateContent _ _ | ChatsCreate _ _ | SendMessage _ _ => true
  | _ => false
  end.

Definition provider_calls (l : list Effect) : list Effect := filter is_provider_call l.

(** Events that are neither a chat submission nor the settlement of a chat
    call, and events that are not the settlement of a chat call. *)
Definition not_chat_settled (e : Event) : bool :=
  match e with ChatSettled _ => false | _ => true end.

Definition not_submit (e : Event) : bool :=
  match e with Submit _ => false | _ => true end.

(** One successful chat turn: the user arrives at a message (typing, and
    anything else that is not a submission), submits it, and the provider
    answers; in between the page stays live. *)
Record Turn : Type := {
  turn_before : list Event;
  turn_message : string;
  turn_env : Env;
  turn_during : list Event;
  turn_reply : GenerateContentResponse
}.

Definition turn_events (t : Turn) : list Event :=
  turn_before t ++ [ChangeInput (turn_message t); Submit (turn_env t)]
  ++ turn_during t ++ [ChatSettled (Js.Fulfilled (turn_reply t))].

Definition turn_well_formed (t : Turn) : Prop :=
  forallb (fun e => not_chat_settled e && not_submit e) (turn_before t) = true
  /\ forallb not_chat_settled (turn_during t) = true
  /\ JsString.truthy (trim (turn_message t)) = true.

Definition turn_entries (t : Turn) : list ChatMessage :=
  [ {| role := user; text := Some (turn_message t) |};
    {| role := model; text := response_text (turn_reply t) |} ].

(** The chat-related part of the page, together with what the log says
    about chat sessions. *)
Definition chat_side (w : World) :=
  (chatMessages (app w), isTyping (app w), chatInstance (app w), chatInFlight w,
   creations (log w), sessions_used (log w)).

(** The in-flight gate: a chat call is pending exactly while [isTyping] is
    set, and then there is one. *)
Definition gate_closed_while_pending (w : World) : Prop :=
  chatInFlight w = if isTyping (app w) then 1 else 0.

(** At most one chat session exists, the log shows its creation and no
    other, and every chat message was sent on it. *)
Definition one_session (w : World) : Prop :=
  match chatInstance (app w) with
  | None => creations (log w) = [] /\ sessions_used (log w) = []
  | Some c =>
      creations (log w) = [chat_systemInstruction c]
      /\ chat_model c = MODEL
      /\ Forall (eq c) (sessions_used (log w))
  end.

(** A displayed object carries the fields of a [NewsItem] the report reads,
    with the types the interface declares; it may carry others. *)
Definition shows (o : gmap string json) (n : NewsItem) : Prop :=
  o !! "title" = Some (JStr (title n))
  /\ o !! "category" = Some (JStr (category n))
  /\ o !! "isVerified" = Some (JBool (isVerified n))
  /\ o !! "timestamp" = Some (JStr (timestamp n))
  /\ o !! "url" = Some (JStr (url n)).

(** The line of the report for a well-typed item. *)
Definition report_line (n : NewsItem) : string :=
  dquote +:+ title n +:+ dquote +:+ "," +:+ category n +:+ "," +:+
  (if isVerified n then "YES" else "NO") +:+ "," +:+ timestamp n +:+ "," +:+ url n.

(** ** A sample platform

    Stand-ins for the built-ins, used by the closed examples: a parser that
    agrees with [JSON.parse] on the texts the examples use (the empty array
    and a three-item array are parsed, the other texts used are not JSON),
    and formatters that are right at the epoch, the only instant the
    examples use. *)
Module Sample.

Definition quoted (s : string) : string := dquote +:+ s +:+ dquote.

Definition three_items_text : string :=
  "[{" +:+ quoted "id" +:+ ":" +:+ quoted "1" +:+ "},{" +:+
  quoted "id" +:+ ":" +:+ quoted "2" +:+ "},{" +:+
  quoted "id" +:+ ":" +:+ quoted "3" +:+ "}]".

Definition three_items : list json :=
  [ JObj {["id" := JStr "1"]}; JObj {["id" := JStr "2"]}; JObj {["id" := JStr "3"]} ].

Definition JSON_parse (s : string) : option json :=
  if String.eqb s "[]" then Some (JArr [])
  else if String.eqb s three_items_text then Some (JArr three_items)
  else None.

Definition toISOString (_ : Z) : string := "1970-01-01T00:00:00.000Z".
Definition toLocaleDateString (_ : string) (_ : Z) : string := "Thursday, January 1, 1970".
Definition toLocaleTimeString (_ : string) (_ : Z) : string := "12:00:00 AM".

Definition env : Env := {| now := 0; language := "en-US" |}.

Definition citation : json :=
  JObj (<["title" := JStr "A"]> {["uri" := JStr "https://a.example"]}).

Definition response (t : option string) (chunks : list GroundingChunk)
  : GenerateContentResponse :=
  {| candidates :=
       Some [ {| groundingMetadata := Some {| groundingChunks := Some chunks |} |} ];
     response_text := t |}.

Definition item : NewsItem :=
  {| id := "1"; title := "Rates held"; summary := "The bank held rates.";
     sources := ["Reuters"; "AP"]; url := "https://n.example/1";
     timestamp := "2024-01-01T10:00:00Z"; category := "Economía";
     isVerified := true; verificationDetails := "Two outlets.";
     groundingSources := None |}.

Definition chunk : GroundingChunk := {| web := Some citation |}.

Definition mount : World := mount toISOString env.
Definition step : World -> Event -> World :=
  step JSON_parse toISOString toLocaleDateString toLocaleTimeString.
Definition run : World -> list Event -> World :=
  run JSON_parse toISOString toLocaleDateString toLocaleTimeString.


(** The page once the first retrieval has brought three items and one
    citation. *)
Definition loaded : World :=
  step mount (NewsSettled env (Js.Fulfilled (response (Some three_items_text) [chunk]))).


(** The page showing one well-typed item, annotated as [fetchNews] stores
    it. *)
Definition showing_item : World :=
  setNews [annotate (JArr [citation]) (JObj (NewsItem_object item))] mount.

End Sample.

(** ** The rest of the page *)

(** *** Localization *)

Module Locale.

Record Views : Type := { news : string; chat : string }.

Record Labels : Type := {
  verified : string;
  pending : string;
  verifyBtn : string;
  export : string;
  placeholderChat : string;
  send : string;
  loading : string;
  understood : string;
  sources : string;
  grounding : string;
  traceability : string;
  analystStatus : string
}.

(** A bundle of [TRANSLATIONS].  [categories] is read with a computed key
    ([locale.categories[cat]]) and is kept as a map. *)
Record Bundle : Type := {
  app : string;
  tagline : string;
  liveStatus : string;
  lastSync : string;
  views : Views;
  categories : gmap string string;
  labels : Labels
}.

Definition es : Bundle :=
  {| app := "MrDaniel";
     tagline := "Analista de Noticias Verificadas";
     liveStatus := "Sincronización en Vivo";
     lastSync := "Sincronizado";
     views := {| news := "Noticias"; chat := "Analista Chat" |};
     categories :=
       <["title" := "Categorías"]>
       (<["General" := "General"]>
       (<["Política" := "Política"]>
       (<["Economía" := "Economía"]>
       (<["Internacional" := "Internacional"]>
       (<["Seguridad" := "Seguridad"]>
       (<["Salud" := "Salud"]>
       (<["Energía" := "Energía"]>
       (<["Crisis" := "Crisis"]> ∅))))))));
     labels :=
       {| verified := "Verificada";
          pending := "En Verificación";
          verifyBtn := "Trazabilidad";
          export := "Reporte Profesional (CSV)";
          placeholderChat := "Analiza la realidad en tiempo real...";
          send := "Enviar";
          loading := "Auditando fuentes globales...";
          understood := "Confirmado";
          sources := "Fuentes de Auditoría";
          grounding := "Grounding (Google Search)";
          traceability := "Análisis de Trazabilidad MrDaniel";
          analystStatus := "Analista Conectado al Pulso Global" |} |}.

Definition en : Bundle :=
  {| app := "MrDaniel";
     tagline := "Verified News Analyst";
     liveStatus := "Live Monitoring";
     lastSync := "Synced";
     views := {| news := "News Feed"; chat := "AI Analyst" |};
     categories :=
       <["title" := "Categories"]>
       (<["General" := "General"]>
       (<["Política" := "Politics"]>
       (<["Economía" := "Economy"]>
       (<["Internacional" := "International"]>
       (<["Seguridad" := "Security"]>
       (<["Salud" := "Health"]>
       (<["Energía" := "Energy"]>
       (<["Crisis" := "Crisis"]> ∅))))))));
     labels :=
       {| verified := "Verified";
          pending := "Verifying";
          verifyBtn := "Traceability";
          export := "Professional Report (CSV)";
          placeholderChat := "Analyze reality in real-time...";
          send := "Send";
          loading := "Auditing global sources...";
          understood := "Confirmed";
          sources := "Audit Sources";
          grounding := "Grounding (Google Search)";
          traceability := "MrDaniel Traceability Analysis";
          analystStatus := "Analyst Connected to Global Pulse" |} |}.

(** The own properties of the object literal [TRANSLATIONS]. *)
Definition TRANSLATIONS : gmap string Bundle := <["es" := es]> (<["en" := en]> ∅).

(** [language.split('-')[0]]: the text before the first hyphen, the whole
    text when there is none. *)
Fixpoint before_hyphen (language : string) : string :=
  match language with
  | "" => ""
  | String a rest =>
      if Ascii.eqb a "-"%char then "" else String a (before_hyphen rest)
  end.

(** What [TRANSLATIONS[lang] || TRANSLATIONS.en] evaluates to: a bundle, or,
    when [lang] names a property [TRANSLATIONS] inherits from
    [Object.prototype] (a function or the prototype itself, truthy), that
    inherited value. *)
Inductive Resolved : Type :=
| Own (bundle : Bundle)
| Inherited (name : string).

Section Resolver.

(** The property names the engine's [Object.prototype] defines. *)
Variable Object_prototype_has : string -> bool.

(** [getLocale], as a function of [navigator.language]. *)
Definition getLocale (language : string) : Resolved :=
  let lang := before_hyphen language in
  match TRANSLATIONS !! lang with
  | Some bundle => Own bundle
  | None => if Object_prototype_has lang then Inherited lang else Own en
  end.

End Resolver.

(** [locale.categories[cat] || cat], the text of a category button.  The
    buttons are made from [CATEGORY_LIST], none of whose members names an
    inherited property. *)
Definition category_label (locale : Bundle) (cat : string) : string :=
  match categories locale !! cat with
  | Some label => if JsString.truthy label then label else cat
  | None => cat
  end.

(** [CATEGORY_LIST.map(cat => <button ...>{locale.categories[cat] || cat}</button>)]:
    the category each button selects and the text it shows. *)
Definition category_buttons (locale : Bundle) : list (string * string) :=
  map (fun cat => (cat, category_label locale cat)) CATEGORY_LIST.

End Locale.

(** *** View *)

(** The heading of the app bar:
    [activeView === 'news' ? locale.categories[selectedCategory] : locale.views.chat];
    [None] is [undefined], which renders as nothing. *)
Definition header_title (locale : Locale.Bundle) (s : AppState) : option string :=
  match activeView s with
  | NewsView => Locale.categories locale !! selectedCategory s
  | ChatView => Some (Locale.chat (Locale.views locale))
  end.

(** [Badge]: the colour variant and the text it shows for a [verified]
    prop. *)
Inductive BadgeStyle : Type := Emerald | AmberPulsing.

Definition Badge (verified : option json) (labels : Locale.Labels)
  : BadgeStyle * string :=
  if Js.truthy verified then (Emerald, Locale.verified labels)
  else (AmberPulsing, Locale.pending labels).

(** The badge of [NewsCard]: [<Badge verified={news.isVerified} .../>]. *)
Definition NewsCard_badge (n : gmap string json) (labels : Locale.Labels)
  : BadgeStyle * string :=
  Badge (n !! "isVerified") labels.

(** The [Verified] cell of the row [exportCSV] writes for an item. *)
Definition csv_verified_cell (n : gmap string json) : option (option json) :=
  csv_row n !! 2.

(** [disabled={isTyping || !input.trim()}] of the send button. *)
Definition send_disabled (s : AppState) : bool :=
  isTyping s || negb (JsString.truthy (trim (input s))).

(** [loading && news.length === 0]: the full-page loading placeholder is
    shown instead of the grid of cards. *)
Definition loading_placeholder (s : AppState) : bool :=
  loading s && Nat.eqb (length (news s)) 0.

Section Gestures.

Variable toISOString : Z -> string.
Variable toLocaleDateString : string -> Z -> string.
Variable toLocaleTimeString : string -> Z -> string.

(** [onKeyDown={(e) => e.key === 'Enter' && handleChat()}]. *)
Definition onKeyDown (key : string) (env : Env) (w : World) : World :=
  if String.eqb key "Enter"
  then handleChat toISOString toLocaleDateString toLocaleTimeString env w
  else w.

End Gestures.

(** *** Vocabulary of the further properties *)

(** The texts of the chat messages sent to the provider in a log, oldest
    first. *)
Fixpoint messages_sent (l : list Effect) : list string :=
  match l with
  | SendMessage _ message :: l' => message :: messages_sent l'
  | _ :: l' => messages_sent l'
  | [] => []
  end.


(** The texts of the user entries of a transcript, in order. *)
Fixpoint user_texts (l : list ChatMessage) : list (option string) :=
  match l with
  | [] => []
  | m :: l' =>
      match role m with
      | user => text m :: user_texts l'
      | model => user_texts l'
      end
  end.

(** The number of model entries of a transcript. *)
Fixpoint replies (l : list ChatMessage) : nat :=
  match l with
  | [] => 0
  | m :: l' =>
      match role m with
      | user => replies l'
      | model => S (replies l')
      end
  end.

(** Every model entry comes right after a user entry; [after_user] tells
    whether the entry before the list is a user entry. *)
Fixpoint replies_follow_user (after_user : bool) (l : list ChatMessage) : bool :=
  match l with
  | [] => true
  | m :: l' =>
      match role m with
      | user => replies_follow_user true l'
      | model => after_user && replies_follow_user false l'
      end
  end.

(** The transcript is well shaped, and ends with a user entry while a reply
    is awaited. *)
Definition transcript_shape (w : World) : Prop :=
  replies_follow_user false (chatMessages (app w)) = true
  /\ (isTyping (app w) = true ->
      exists m, last (chatMessages (app w)) = Some m /\ role m = user).

(** The log and the transcript tell the same story: the messages sent are
    the texts of the user entries. *)
Definition sent_matches_transcript (w : World) : Prop :=
  map Some (messages_sent (log w)) = user_texts (chatMessages (app w)).

(** No retrieval is pending only once the spinner is off, and no more
    retrievals are pending than were issued. *)
Definition news_accounting (w : World) : Prop :=
  (newsInFlight w = 0 -> loading (app w) = false)
  /\ newsInFlight w <= length (retrievals (log w)).

(** A chat turn with any outcome: like [Turn], but the provider call may be
    rejected. *)
Record Attempt : Type := {
  attempt_before : list Event;
  attempt_message : string;
  attempt_env : Env;
  attempt_during : list Event;
  attempt_outcome : Js.Settled GenerateContentResponse
}.

Definition attempt_events (t : Attempt) : list Event :=
  attempt_before t ++ [ChangeInput (attempt_message t); Submit (attempt_env t)]
  ++ attempt_during t ++ [ChatSettled (attempt_outcome t)].

Definition attempt_well_formed (t : Attempt) : Prop :=
  forallb (fun e => not_chat_settled e && not_submit e) (attempt_before t) = true
  /\ forallb not_chat_settled (attempt_during t) = true
  /\ JsString.truthy (trim (attempt_message t)) = true.

Definition attempt_entries (t : Attempt) : list ChatMessage :=
  {| role := user; text := Some (attempt_message t) |}
  :: match attempt_outcome t with
     | Js.Fulfilled r => [{| role := model; text := response_text r |}]
     | Js.Rejected _ => []
     end.

Definition attempt_succeeded (t : Attempt) : bool :=
  match attempt_outcome t with Js.Fulfilled _ => true | Js.Rejected _ => false end.

(** The category buttons are the only source of [SelectCategory] events. *)
Definition from_category_button (e : Event) : Prop :=
  match e with
  | SelectCategory _ cat => cat ∈ CATEGORY_LIST
  | _ => True
  end.

(** Reading a report back: the pieces of a text between occurrences of a
    separator character. *)
Fixpoint split_at (sep : ascii) (s : string) : list string :=
  match s with
  | "" => [""]
  | String a rest =>
      if Ascii.eqb a sep then "" :: split_at sep rest
      else match split_at sep rest with
           | piece :: pieces => String a piece :: pieces
           | [] => [String a ""]
           end
  end.

(** The number of occurrences of a character in a text. *)
Fixpoint occurrences (c : ascii) (s : string) : nat :=
  match s with
  | "" => 0
  | String a rest => (if Ascii.eqb a c then 1 else 0) + occurrences c rest
  end.

Definition comma : ascii := ","%char.
Definition line_feed : ascii := byte 10.

(** No field the report prints contains the character. *)
Definition free_of (c : ascii) (n : NewsItem) : Prop :=
  occurrences c (title n) = 0 /\ occurrences c (category n) = 0
  /\ occurrences c (timestamp n) = 0 /\ occurrences c (url n) = 0.

(** The cells [exportCSV] writes for a well-typed item. *)
Definition report_cells (n : NewsItem) : list string :=
  [ dquote +:+ title n +:+ dquote; category n;
    if isVerified n then "YES" else "NO"; timestamp n; url n ].


(** *** Further samples *)

Module Fixtures.

(** As [Sample.JSON_parse], and also parsing two texts that are JSON but
    not arrays. *)
Definition JSON_parse (s : string) : option json :=
  if String.eqb s "{}" then Some (JObj ∅)
  else if String.eqb s "null" then Some JNull
  else Sample.JSON_parse s.

Definition step : World -> Event -> World :=
  step JSON_parse Sample.toISOString Sample.toLocaleDateString Sample.toLocaleTimeString.
Definition run : World -> list Event -> World :=
  run JSON_parse Sample.toISOString Sample.toLocaleDateString Sample.toLocaleTimeString.

(** The page with the first retrieval and a refresh both pending. *)
Definition two_pending : World := run Sample.mount [Refresh Sample.env].

Definition headline : NewsItem :=
  {| id := "2"; title := "Rates held, for now"; summary := "";
     sources := []; url := "https://n.example/2";
     timestamp := "2024-01-01T11:00:00Z"; category := "Economía";
     isVerified := false; verificationDetails := "";
     groundingSources := None |}.

Definition failed_then_answered : list Attempt :=
  [ {| attempt_before := [];
       attempt_message := "hola";
       attempt_env := Sample.env;
       attempt_during := [Submit Sample.env];
       attempt_outcome := Js.Rejected (Js.ProviderError "503") |};
    {| attempt_before := [Refresh Sample.env];
       attempt_message := " ¿sigues ahí? ";
       attempt_env := {| now := 60000; language := "es-ES" |};
       attempt_during := [];
       attempt_outcome := Js.Fulfilled (Sample.response (Some "Sí.") []) |} ].

End Fixtures.

(** ** Properties *)

Section Properties.

Variable JSON_parse : string -> option json.
Variable toISOString : Z -> string.
Variable toLocaleDateString : string -> Z -> string.
Variable toLocaleTimeString : string -> Z -> string.

#[local] Abbreviation fetchNews := (fetchNews toISOString).
#[local] Abbreviation fetchNews_try := (fetchNews_try JSON_parse).
#[local] Abbreviation fetchNews_settled := (fetchNews_settled JSON_parse).
#[local] Abbreviation selectCategory := (selectCategory toISOString).
#[local] Abbreviation system_instruction :=
  (system_instruction toISOString toLocaleDateString toLocaleTimeString).
#[local] Abbreviation handleChat :=
  (handleChat toISOString toLocaleDateString toLocaleTimeString).
#[local] Abbreviation step := (step JSON_parse toISOString toLocaleDateString toLocaleTimeString).
#[local] Abbreviation run := (run JSON_parse toISOString toLocaleDateString toLocaleTimeString).
#[local] Abbreviation mount := (mount toISOString).

(** *** White space *)

Lemma drop_while_all {A} (p : A -> bool) (l : list A) :
  Forall (fun x => p x = true) l -> drop_while p l = [].
Proof.
  induction 1 as [|x l Hx _ IH]; simpl; [done|]. by rewrite Hx.
Qed.

Lemma trim_whitespace_only s : whitespace_only s -> trim s = "".
Proof.
  intros H. unfold trim. by rewrite (drop_while_all _ _ H).
Qed.

(** *** News retrieval *)

Lemma fetchNews_try_fails p :
  retrieval_fails JSON_parse p -> exists e, fetchNews_try p = Js.Throw e.
Proof.
  destruct p as [r|e]; simpl; intros H.
  - exists Js.SyntaxError. unfold fetchNews_try. simpl.
    unfold mbind, Completion_bind. simpl. by rewrite H.
  - by exists e.
Qed.

(** A response with a non-empty text that is not JSON makes the retrieval
    fail; one with an empty text does not, since the text parsed is then the
    fallback. *)
Lemma retrieval_fails_malformed_text r t :
  response_text r = Some t -> t <> "" -> JSON_parse t = None ->
  retrieval_fails JSON_parse (Js.Fulfilled r).
Proof.
  intros Hr Ht Hp. simpl. unfold text_or_empty_array. rewrite Hr.
  by destruct t.
Qed.

Lemma retrieval_succeeds_empty_text r :
  JSON_parse "[]" = Some (JArr []) -> response_text r = Some "" ->
  ~ retrieval_fails JSON_parse (Js.Fulfilled r).
Proof.
  intros Hp Hr. simpl. unfold text_or_empty_array. rewrite Hr. simpl. by rewrite Hp.
Qed.

(** C1. A retrieval that fails (the provider call throws, or the text
    handed to [JSON.parse] is not valid JSON) changes neither the displayed
    news list nor the last-synchronised time, at the moment the call is
    issued and at the moment it settles; the failure is logged to the
    console, the handler's promise is fulfilled and nothing is left
    unhandled.  The same holds of the page's step for that settlement. *)
Theorem fetchNews_failure_keeps_news env0 cat env p (w0 w : World) :
  retrieval_fails JSON_parse p ->
  (news (app (fetchNews env0 cat w0)) = news (app w0)
   /\ lastSync (app (fetchNews env0 cat w0)) = lastSync (app w0))
  /\ news (app (fetchNews_settled env p w).1) = news (app w)
  /\ lastSync (app (fetchNews_settled env p w).1) = lastSync (app w)
  /\ loading (app (fetchNews_settled env p w).1) = false
  /\ (fetchNews_settled env p w).2 = Js.Normal ()
  /\ (exists e, log (detach (fetchNews_settled env p w))
                = log w ++ [ConsoleError "Critical news engine failure:" e])
  /\ news (app (step w (NewsSettled env p))) = news (app w)
  /\ lastSync (app (step w (NewsSettled env p))) = lastSync (app w).
Proof.
  intros Hfail. destruct (fetchNews_try_fails p Hfail) as [e He].
  split; [done|].
  unfold step. destruct (newsInFlight w); unfold fetchNews_settled; rewrite He; simpl;
    repeat split; try done; by exists e.
Qed.

(** C10. A retrieval that resolves with an absent or empty text parses the
    fallback text of the empty array: the displayed list is replaced by the
    empty list, whatever it was, and the last-synchronised time is set to the
    time of the settlement; nothing is logged. *)
Theorem fetchNews_empty_text_clears_news env r (w : World) :
  response_text r = None \/ response_text r = Some "" ->
  JSON_parse "[]" = Some (JArr []) ->
  text_or_empty_array r = "[]"
  /\ fetchNews_try (Js.Fulfilled r) = Js.Normal []
  /\ news (app (fetchNews_settled env (Js.Fulfilled r) w).1) = []
  /\ lastSync (app (fetchNews_settled env (Js.Fulfilled r) w).1) = now env
  /\ loading (app (fetchNews_settled env (Js.Fulfilled r) w).1) = false
  /\ log (detach (fetchNews_settled env (Js.Fulfilled r) w)) = log w.
Proof.
  intros Htext Hparse.
  assert (Ht : text_or_empty_array r = "[]").
  { unfold text_or_empty_array. by destruct Htext as [-> | ->]. }
  assert (Htry : fetchNews_try (Js.Fulfilled r) = Js.Normal []).
  { unfold fetchNews_try. simpl. unfold mbind, Completion_bind. simpl.
    by rewrite Ht, Hparse. }
  split; [done|]. split; [done|].
  unfold fetchNews_settled. by rewrite Htry.
Qed.

Lemma annotate_grounding g item : annotate g item !! "groundingSources" = Some g.
Proof. unfold annotate. apply lookup_insert_eq. Qed.

Lemma fetchNews_try_array r items :
  JSON_parse (text_or_empty_array r) = Some (JArr items) ->
  fetchNews_try (Js.Fulfilled r) = Js.Normal (map (annotate (grounding_of r)) items).
Proof.
  intros H. unfold fetchNews_try. simpl. unfold mbind, Completion_bind. simpl.
  by rewrite H.
Qed.

(** C7. After a successful retrieval the displayed list has one entry per
    parsed item, in order, each the item extended with [groundingSources] set
    to the one list of citations taken from the response's grounding
    metadata.  In particular, when the first candidate carries exactly one
    citation and three items are parsed, each of the three entries carries
    the list made of that citation. *)
Theorem fetchNews_shares_grounding env r items (w : World) :
  JSON_parse (text_or_empty_array r) = Some (JArr items) ->
  news (app (fetchNews_settled env (Js.Fulfilled r) w).1)
    = map (annotate (grounding_of r)) items
  /\ length (news (app (fetchNews_settled env (Js.Fulfilled r) w).1)) = length items
  /\ Forall (fun n : gmap string json => n !! "groundingSources" = Some (grounding_of r))
        (news (app (fetchNews_settled env (Js.Fulfilled r) w).1))
  /\ (forall props others i1 i2 i3,
        candidates r =
          Some ({| groundingMetadata :=
                     Some {| groundingChunks := Some [ {| web := Some (JObj props) |} ] |} |}
                :: others) ->
        items = [i1; i2; i3] ->
        exists n1 n2 n3,
          news (app (fetchNews_settled env (Js.Fulfilled r) w).1) = [n1; n2; n3]
          /\ n1 !! "groundingSources" = Some (JArr [JObj props])
          /\ n2 !! "groundingSources" = Some (JArr [JObj props])
          /\ n3 !! "groundingSources" = Some (JArr [JObj props])).
Proof.
  intros Hparse.
  assert (Hnews : news (app (fetchNews_settled env (Js.Fulfilled r) w).1)
                  = map (annotate (grounding_of r)) items).
  { unfold fetchNews_settled. by rewrite (fetchNews_try_array r items Hparse). }
  rewrite Hnews. split; [done|]. split; [by rewrite length_map|].
  split.
  - apply Forall_forall. intros n Hn.
    apply list_elem_of_fmap in Hn as (item & -> & _). apply annotate_grounding.
  - intros props others i1 i2 i3 Hc ->.
    assert (Hg : grounding_of r = JArr [JObj props]).
    { unfold grounding_of. by rewrite Hc. }
    rewrite Hg. simpl.
    eexists _, _, _. split; [reflexivity|].
    repeat split; apply annotate_grounding.
Qed.

(** *** Analyst chat *)

Lemma handleChat_blank env (w : World) :
  trim (input (app w)) = "" -> handleChat env w = w.
Proof. intros H. unfold handleChat. by rewrite H. Qed.

Lemma handleChat_typing env (w : World) :
  isTyping (app w) = true -> handleChat env w = w.
Proof. intros H. unfold handleChat. rewrite H. by rewrite orb_true_r. Qed.

(** What an accepted submission does, field by field. *)
Lemma handleChat_accepted env (w : World) :
  JsString.truthy (trim (input (app w))) = true ->
  isTyping (app w) = false ->
  chatMessages (app (handleChat env w))
    = chatMessages (app w) ++ [{| role := user; text := Some (input (app w)) |}]
  /\ input (app (handleChat env w)) = ""
  /\ isTyping (app (handleChat env w)) = true
  /\ chatInFlight (handleChat env w) = S (chatInFlight w)
  /\ newsInFlight (handleChat env w) = newsInFlight w
  /\ news (app (handleChat env w)) = news (app w)
  /\ chatInstance (app (handleChat env w))
     = Some (default {| chat_model := MODEL;
                        chat_systemInstruction := system_instruction env |}
               (chatInstance (app w)))
  /\ log (handleChat env w)
     = log w
       ++ match chatInstance (app w) with
          | Some _ => []
          | None => [ChatsCreate MODEL (system_instruction env)]
          end
       ++ [SendMessage
             (default {| chat_model := MODEL;
                         chat_systemInstruction := system_instruction env |}
                (chatInstance (app w)))
             (input (app w))].
Proof.
  intros Hin Hty. unfold handleChat, ensure_chat. rewrite Hin, Hty. simpl.
  destruct (chatInstance (app w)) as [c|] eqn:Hc; simpl; rewrite ?Hc;
    repeat split; try done.
  by rewrite <- app_assoc.
Qed.

(** C4. When the input is empty or made of white space only, [handleChat]
    returns at once: the page is left exactly as it was, so the transcript is
    unchanged and no call to the provider is issued. *)
Theorem handleChat_ignores_blank_input env (w : World) :
  whitespace_only (input (app w)) ->
  handleChat env w = w
  /\ step w (Submit env) = w
  /\ chatMessages (app (step w (Submit env))) = chatMessages (app w)
  /\ provider_calls (log (step w (Submit env))) = provider_calls (log w).
Proof.
  intros H. apply trim_whitespace_only in H.
  assert (Hw : handleChat env w = w) by by apply handleChat_blank.
  simpl. by rewrite !Hw.
Qed.

(** *** Logs *)

Lemma retrievals_app l1 l2 : retrievals (l1 ++ l2) = retrievals l1 ++ retrievals l2.
Proof. induction l1 as [|[] l1 IH]; simpl; by rewrite ?IH. Qed.

Lemma creations_app l1 l2 : creations (l1 ++ l2) = creations l1 ++ creations l2.
Proof. induction l1 as [|[] l1 IH]; simpl; by rewrite ?IH. Qed.

Lemma sessions_used_app l1 l2 :
  sessions_used (l1 ++ l2) = sessions_used l1 ++ sessions_used l2.
Proof. induction l1 as [|[] l1 IH]; simpl; by rewrite ?IH. Qed.

Lemma provider_calls_app l1 l2 :
  provider_calls (l1 ++ l2) = provider_calls l1 ++ provider_calls l2.
Proof. apply filter_app. Qed.

(** *** Steps of the page *)

Lemma run_app (w : World) (es1 es2 : list Event) :
  run w (es1 ++ es2) = run (run w es1) es2.
Proof. apply fold_left_app. Qed.

Lemma run_cons (w : World) e (es : list Event) : run w (e :: es) = run (step w e) es.
Proof. reflexivity. Qed.

Lemma chat_side_inv (w' w : World) :
  chat_side w' = chat_side w ->
  chatMessages (app w') = chatMessages (app w)
  /\ isTyping (app w') = isTyping (app w)
  /\ chatInstance (app w') = chatInstance (app w)
  /\ chatInFlight w' = chatInFlight w
  /\ creations (log w') = creations (log w)
  /\ sessions_used (log w') = sessions_used (log w).
Proof.
  unfold chat_side. intros H. injection H. intros. repeat split; assumption.
Qed.

Ltac step_cases :=
  unfold step, selectCategory, refresh, exportCSV, fetchNews, fetchNews_settled,
    handleChat_settled, detach, chat_side;
  repeat match goal with
    | |- context [match ?x with _ => _ end] => destruct x eqn:?
    end;
  simpl;
  rewrite ?creations_app, ?sessions_used_app, ?retrievals_app, ?provider_calls_app;
  simpl; rewrite ?app_nil_r.

(** Gestures and settlements outside the chat leave the chat side alone, and
    so does a submission while a reply is awaited. *)
Lemma step_chat_side (w : World) e :
  not_chat_settled e = true ->
  not_submit e = true \/ isTyping (app w) = true ->
  chat_side (step w e) = chat_side w.
Proof.
  intros Hs Hg. destruct e; try discriminate Hs.
  1-4, 6: by step_cases.
  destruct Hg as [Hg|Hg]; [discriminate Hg|].
  simpl. by rewrite handleChat_typing.
Qed.

Lemma run_chat_side_idle (w : World) (es : list Event) :
  forallb (fun e => not_chat_settled e && not_submit e) es = true ->
  chat_side (run w es) = chat_side w.
Proof.
  revert w. induction es as [|e es IH]; intros w H; [done|].
  simpl in H. apply andb_prop in H as [He H]. apply andb_prop in He as [He1 He2].
  rewrite run_cons, IH by done. apply step_chat_side; auto.
Qed.

Lemma run_chat_side_awaiting (w : World) (es : list Event) :
  isTyping (app w) = true ->
  forallb not_chat_settled es = true ->
  chat_side (run w es) = chat_side w.
Proof.
  revert w. induction es as [|e es IH]; intros w Hty H; [done|].
  simpl in H. apply andb_prop in H as [He H].
  assert (Hs : chat_side (step w e) = chat_side w) by (apply step_chat_side; auto).
  rewrite run_cons, IH; [done| |done].
  apply chat_side_inv in Hs as (_ & -> & _). done.
Qed.

Lemma gate_mount env : gate_closed_while_pending (mount env).
Proof. reflexivity. Qed.

Lemma gate_step (w : World) e :
  gate_closed_while_pending w -> gate_closed_while_pending (step w e).
Proof.
  unfold gate_closed_while_pending. intros Hw.
  destruct e as [env cat|env|env p|v|env|p|env].
  1-4, 7:
    (match goal with
     | |- context [step ?w0 ?e] =>
         assert (Hs : chat_side (step w0 e) = chat_side w0)
           by (apply step_chat_side; [reflexivity|by left])
     end;
     apply chat_side_inv in Hs as (_ & Hty & _ & Hfl & _);
     by rewrite Hfl, Hty).
  - simpl. destruct (isTyping (app w)) eqn:Hty.
    + by rewrite handleChat_typing, Hty.
    + destruct (JsString.truthy (trim (input (app w)))) eqn:Hin.
      * destruct (handleChat_accepted env w Hin Hty)
          as (_ & _ & Hty' & Hfl & _). by rewrite Hty', Hfl, Hw.
      * rewrite handleChat_blank, Hty; [done|].
        by destruct (trim (input (app w))).
  - simpl. destruct (chatInFlight w) as [|n] eqn:Hfl; [by rewrite Hfl|].
    destruct (isTyping (app w)); [|discriminate Hw].
    injection Hw as ->. unfold handleChat_settled, detach.
    destruct p; simpl; by rewrite Hfl.
Qed.

Lemma gate_run (w : World) (es : list Event) :
  gate_closed_while_pending w -> gate_closed_while_pending (run w es).
Proof.
  revert w. induction es as [|e es IH]; intros w Hw; [done|].
  rewrite run_cons. by apply IH, gate_step.
Qed.

Lemma step_chat_settled (w : World) p :
  chatInFlight w <> 0 ->
  chatMessages (app (step w (ChatSettled p)))
    = chatMessages (app w)
      ++ match p with
         | Js.Fulfilled r => [{| role := model; text := response_text r |}]
         | Js.Rejected _ => []
         end
  /\ isTyping (app (step w (ChatSettled p))) = false
  /\ chatInstance (app (step w (ChatSettled p))) = chatInstance (app w)
  /\ chatInFlight (step w (ChatSettled p)) = pred (chatInFlight w)
  /\ log (step w (ChatSettled p))
     = log w ++ match p with
                | Js.Fulfilled _ => []
                | Js.Rejected err => [ConsoleError "Chat engine failure:" err]
                end.
Proof.
  intros Hfl. simpl. destruct (chatInFlight w) eqn:E; [done|].
  unfold handleChat_settled, detach. destruct p; simpl; rewrite ?app_nil_r, ?E; done.
Qed.

(** C5. On every state the page can reach there is at most one chat call in
    flight, and there is one exactly when [isTyping] is set.  While it is set
    a submission changes nothing at all (no provider call, no transcript
    entry), and neither the transcript nor the pending call is affected by
    anything that happens before the call settles; the settlement, fulfilled
    or rejected, clears the flag and leaves no call in flight. *)
Theorem chat_gate_single_flight env0 (events : list Event) :
  chatInFlight (run (mount env0) events) <= 1
  /\ (isTyping (app (run (mount env0) events)) = true
      <-> chatInFlight (run (mount env0) events) = 1)
  /\ (isTyping (app (run (mount env0) events)) = true ->
      (forall env,
          step (run (mount env0) events) (Submit env) = run (mount env0) events)
      /\ (forall more,
          forallb not_chat_settled more = true ->
          chat_side (run (run (mount env0) events) more)
            = chat_side (run (mount env0) events))
      /\ (forall p,
          isTyping (app (step (run (mount env0) events) (ChatSettled p))) = false
          /\ chatInFlight (step (run (mount env0) events) (ChatSettled p)) = 0)).
Proof.
  pose proof (gate_run (mount env0) events (gate_mount env0)) as Hg.
  unfold gate_closed_while_pending in Hg.
  split; [rewrite Hg; by destruct (isTyping _); lia|].
  split; [rewrite Hg; by destruct (isTyping _)|].
  intros Hty. rewrite Hty in Hg. repeat split.
  - intros env. simpl. by apply handleChat_typing.
  - intros more Hmore. by apply run_chat_side_awaiting.
  - apply step_chat_settled. by rewrite Hg.
  - destruct (step_chat_settled (run (mount env0) events) p) as (_ & _ & _ & -> & _);
      by rewrite Hg.
Qed.

(** C2. A chat turn whose provider call is rejected: the submission is
    accepted, anything may happen while the reply is awaited, and then
    [sendMessage] throws.  Afterwards the transcript is the earlier
    transcript followed by the user's message, with no reply after it;
    [isTyping] is cleared; the settlement logs the failure to the console and
    issues no provider call, so nothing is retried and no chat call is left in
    flight. *)
Theorem handleChat_failure_keeps_user_message env err (w : World) (during : list Event) :
  JsString.truthy (trim (input (app w))) = true ->
  isTyping (app w) = false ->
  forallb not_chat_settled during = true ->
  chatMessages
    (app (step (run (step w (Submit env)) during) (ChatSettled (Js.Rejected err))))
    = chatMessages (app w) ++ [{| role := user; text := Some (input (app w)) |}]
  /\ last (chatMessages
       (app (step (run (step w (Submit env)) during) (ChatSettled (Js.Rejected err)))))
     = Some {| role := user; text := Some (input (app w)) |}
  /\ isTyping
       (app (step (run (step w (Submit env)) during) (ChatSettled (Js.Rejected err))))
     = false
  /\ log (step (run (step w (Submit env)) during) (ChatSettled (Js.Rejected err)))
     = log (run (step w (Submit env)) during)
       ++ [ConsoleError "Chat engine failure:" err]
  /\ provider_calls
       (log (step (run (step w (Submit env)) during) (ChatSettled (Js.Rejected err))))
     = provider_calls (log (run (step w (Submit env)) during))
  /\ chatInFlight
       (step (run (step w (Submit env)) during) (ChatSettled (Js.Rejected err)))
     = chatInFlight w.
Proof.
  intros Hin Hty Hduring.
  destruct (handleChat_accepted env w Hin Hty) as (Hm & _ & Hty1 & Hfl1 & _).
  change (handleChat env w) with (step w (Submit env)) in Hm, Hty1, Hfl1.
  pose proof (run_chat_side_awaiting _ during Hty1 Hduring) as Hside.
  apply chat_side_inv in Hside as (Hm2 & _ & _ & Hfl2 & _).
  destruct (step_chat_settled (run (step w (Submit env)) during) (Js.Rejected err))
    as (Hm3 & Hty3 & _ & Hfl3 & Hlog3).
  { by rewrite Hfl2, Hfl1. }
  rewrite Hm3, Hty3, Hfl3, Hlog3, Hm2, Hm, Hfl2, Hfl1, app_nil_r.
  repeat split; try done.
  - apply last_snoc.
  - rewrite provider_calls_app. simpl. by rewrite app_nil_r.
Qed.

(** *** The transcript *)

Lemma step_transcript_prefix (w : World) e :
  chatMessages (app w) `prefix_of` chatMessages (app (step w e)).
Proof.
  destruct e as [env cat|env|env p|v|env|p|env].
  1-4, 7:
    (match goal with
     | |- context [step ?w0 ?e] =>
         assert (Hs : chat_side (step w0 e) = chat_side w0)
           by (apply step_chat_side; [reflexivity|by left])
     end;
     apply chat_side_inv in Hs as (-> & _); done).
  - simpl. destruct (isTyping (app w)) eqn:Hty.
    + by rewrite handleChat_typing.
    + destruct (JsString.truthy (trim (input (app w)))) eqn:Hin.
      * destruct (handleChat_accepted env w Hin Hty) as (-> & _).
        by apply prefix_app_r.
      * rewrite handleChat_blank; [done|]. by destruct (trim (input (app w))).
  - destruct (chatInFlight w) eqn:Hfl.
    + simpl. by rewrite Hfl.
    + destruct (step_chat_settled w p) as (-> & _); [by rewrite Hfl|].
      by apply prefix_app_r.
Qed.

Lemma run_transcript_prefix (w : World) (es : list Event) :
  chatMessages (app w) `prefix_of` chatMessages (app (run w es)).
Proof.
  revert w. induction es as [|e es IH]; intros w; [done|].
  rewrite run_cons. etrans; [apply step_transcript_prefix|apply IH].
Qed.

(** One successful turn appends the user's message and then the reply. *)
Lemma run_turn (w : World) (t : Turn) :
  isTyping (app w) = false ->
  turn_well_formed t ->
  chatMessages (app (run w (turn_events t))) = chatMessages (app w) ++ turn_entries t
  /\ isTyping (app (run w (turn_events t))) = false.
Proof.
  intros Hty (Hbefore & Hduring & Hmsg). unfold turn_events.
  rewrite run_app.
  pose proof (run_chat_side_idle w _ Hbefore) as H0.
  apply chat_side_inv in H0 as (Hm0 & Hty0 & _).
  set (w0 := run w (turn_before t)) in *.
  rewrite <- app_comm_cons, run_cons, <- app_comm_cons, run_cons, app_nil_l, run_app.
  set (w1 := step w0 (ChangeInput (turn_message t))).
  assert (Hin1 : input (app w1) = turn_message t) by reflexivity.
  assert (Hm1 : chatMessages (app w1) = chatMessages (app w)) by (by rewrite <- Hm0).
  assert (Hty1 : isTyping (app w1) = false) by (simpl; by rewrite Hty0).
  destruct (handleChat_accepted (turn_env t) w1) as (Hm2 & _ & Hty2 & Hfl2 & _);
    [by rewrite Hin1|done|].
  change (handleChat (turn_env t) w1) with (step w1 (Submit (turn_env t)))
    in Hm2, Hty2, Hfl2.
  set (w2 := step w1 (Submit (turn_env t))) in *.
  pose proof (run_chat_side_awaiting w2 _ Hty2 Hduring) as H3.
  apply chat_side_inv in H3 as (Hm3 & _ & _ & Hfl3 & _).
  set (w3 := run w2 (turn_during t)) in *.
  destruct (step_chat_settled w3 (Js.Fulfilled (turn_reply t))) as (Hm4 & Hty4 & _).
  { by rewrite Hfl3, Hfl2. }
  change (run w3 [ChatSettled (Js.Fulfilled (turn_reply t))])
    with (step w3 (ChatSettled (Js.Fulfilled (turn_reply t)))).
  split; [|done].
  rewrite Hm4, Hm3, Hm2, Hm1, Hin1, <- app_assoc. done.
Qed.

Lemma run_turns (w : World) (turns : list Turn) :
  isTyping (app w) = false ->
  Forall turn_well_formed turns ->
  chatMessages (app (run w (concat (map turn_events turns))))
    = chatMessages (app w) ++ concat (map turn_entries turns).
Proof.
  intros Hty Hturns. revert w Hty.
  induction Hturns as [|t turns Ht _ IH]; intros w Hty; simpl.
  - by rewrite app_nil_r.
  - rewrite run_app. destruct (run_turn w t Hty Ht) as (Hm & Hty').
    rewrite IH, Hm by done. by rewrite <- app_assoc.
Qed.

Lemma turn_entries_alternate (turns : list Turn) i m :
  concat (map turn_entries turns) !! i = Some m ->
  role m = if Nat.even i then user else model.
Proof.
  revert i. induction turns as [|t turns IH]; intros i; simpl; [done|].
  destruct i as [|[|i]]; simpl.
  - by intros [= <-].
  - by intros [= <-].
  - apply IH.
Qed.

Lemma turn_entries_length (turns : list Turn) :
  length (concat (map turn_entries turns)) = 2 * length turns.
Proof. induction turns as [|t turns IH]; simpl; [done|]. rewrite IH. lia. Qed.

(** C3. The transcript only grows at its end: whatever happens, the
    transcript before is a prefix of the transcript after, so no entry is
    changed or removed.  After [N] successful turns from the start of the
    page it has [2N] entries: for each turn in order the user's message
    followed by the reply to it, hence user entries at the even positions and
    model entries at the odd ones. *)
Theorem transcript_append_only env0 (turns : list Turn) :
  Forall turn_well_formed turns ->
  (forall (w : World) (events : list Event),
      chatMessages (app w) `prefix_of` chatMessages (app (run w events)))
  /\ chatMessages (app (run (mount env0) (concat (map turn_events turns))))
     = concat (map turn_entries turns)
  /\ length (chatMessages (app (run (mount env0) (concat (map turn_events turns)))))
     = 2 * length turns
  /\ (forall i m,
       chatMessages (app (run (mount env0) (concat (map turn_events turns)))) !! i
         = Some m ->
       role m = if Nat.even i then user else model)
  /\ (forall k t,
       turns !! k = Some t ->
       chatMessages (app (run (mount env0) (concat (map turn_events turns)))) !! (2 * k)
         = Some {| role := user; text := Some (turn_message t) |}
       /\ chatMessages (app (run (mount env0) (concat (map turn_events turns))))
            !! (2 * k + 1)
          = Some {| role := model; text := response_text (turn_reply t) |}).
Proof.
  intros Hturns. split; [apply run_transcript_prefix|].
  rewrite (run_turns (mount env0) turns eq_refl Hturns). simpl.
  split; [done|]. split; [apply turn_entries_length|].
  split; [apply turn_entries_alternate|].
  clear Hturns. induction turns as [|t0 turns IH]; intros k t; [done|].
  destruct k as [|k]; simpl.
  - by intros [= ->].
  - intros Hk. destruct (IH k t Hk) as (H1 & H2).
    replace (k + S (k + 0)) with (S (2 * k)) by lia. simpl.
    replace (k + (k + 0)) with (2 * k) by lia.
    replace (k + (k + 0) + 1) with (2 * k + 1) in * by lia. done.
Qed.

(** *** The chat session *)

Lemma append_assoc (s1 s2 s3 : string) : (s1 +:+ s2) +:+ s3 = s1 +:+ (s2 +:+ s3).
Proof.
  induction s1 as [|a s1 IH]; [done|].
  change (String a ((s1 +:+ s2) +:+ s3) = String a (s1 +:+ (s2 +:+ s3))).
  by f_equal.
Qed.

Lemma Contains_here (needle after : string) : Contains (needle +:+ after) needle.
Proof. by exists "", after. Qed.

Lemma Contains_append_r (before s needle : string) :
  Contains s needle -> Contains (before +:+ s) needle.
Proof.
  intros (b & a & ->). exists (before +:+ b), a. by rewrite append_assoc.
Qed.

Ltac find_in_template :=
  repeat first [ apply Contains_here | apply Contains_append_r ].

Lemma one_session_mount env : one_session (mount env).
Proof. by split. Qed.

Lemma one_session_step (w : World) e : one_session w -> one_session (step w e).
Proof.
  intros Hw.
  assert (Hside : chat_side (step w e) = chat_side w -> one_session (step w e)).
  { intros Hs. apply chat_side_inv in Hs as (_ & _ & Hc & _ & Hcr & Hsu).
    unfold one_session in *. by rewrite Hc, Hcr, Hsu. }
  destruct e as [env cat|env|env p|v|env|p|env];
    try (apply Hside; apply step_chat_side; [reflexivity|by left]).
  - destruct (isTyping (app w)) eqn:Hty.
    { apply Hside, step_chat_side; [reflexivity|by right]. }
    destruct (JsString.truthy (trim (input (app w)))) eqn:Hin.
    2: { simpl. rewrite handleChat_blank; [done|]. by destruct (trim (input (app w))). }
    destruct (handleChat_accepted env w Hin Hty) as (_ & _ & _ & _ & _ & _ & Hc & Hlog).
    unfold one_session in *. simpl step. rewrite Hc, Hlog.
    rewrite !creations_app, !sessions_used_app. simpl.
    destruct (chatInstance (app w)) as [c|]; simpl.
    + destruct Hw as (-> & ? & Hall). rewrite app_nil_r.
      repeat split; try done. apply Forall_app. split; [done|]. by constructor.
    + destruct Hw as (-> & ->). repeat split; try done. by constructor.
  - destruct (chatInFlight w) eqn:Hfl.
    { simpl. by rewrite Hfl. }
    destruct (step_chat_settled w p) as (_ & _ & Hc & _ & Hlog); [by rewrite Hfl|].
    unfold one_session in *. rewrite Hc, Hlog, creations_app, sessions_used_app.
    destruct p; simpl; by rewrite !app_nil_r.
Qed.

Lemma one_session_run (w : World) (es : list Event) :
  one_session w -> one_session (run w es).
Proof.
  revert w. induction es as [|e es IH]; intros w Hw; [done|].
  rewrite run_cons. by apply IH, one_session_step.
Qed.

(** Once created, the session in the ref cell is never replaced. *)
Lemma chatInstance_step (w : World) e c :
  chatInstance (app w) = Some c -> chatInstance (app (step w e)) = Some c.
Proof.
  intros Hc.
  destruct e as [env cat|env|env p|v|env|p|env];
    try (match goal with
         | |- context [step ?w0 ?e] =>
             assert (Hs : chat_side (step w0 e) = chat_side w0)
               by (apply step_chat_side; [reflexivity|by left])
         end;
         apply chat_side_inv in Hs as (_ & _ & -> & _); done).
  - simpl. destruct (isTyping (app w)) eqn:Hty; [by rewrite handleChat_typing|].
    destruct (JsString.truthy (trim (input (app w)))) eqn:Hin.
    + destruct (handleChat_accepted env w Hin Hty) as (_ & _ & _ & _ & _ & _ & -> & _).
      by rewrite Hc.
    + rewrite handleChat_blank; [done|]. by destruct (trim (input (app w))).
  - destruct (chatInFlight w) eqn:Hfl.
    { simpl. by rewrite Hfl. }
    destruct (step_chat_settled w p) as (_ & _ & -> & _); [by rewrite Hfl|done].
Qed.

Lemma chatInstance_run (w : World) (es : list Event) c :
  chatInstance (app w) = Some c -> chatInstance (app (run w es)) = Some c.
Proof.
  revert w. induction es as [|e es IH]; intros w Hw; [done|].
  rewrite run_cons. by apply IH, chatInstance_step.
Qed.

(** Only an accepted submission puts a session in the ref cell. *)
Lemma chatInstance_created_by_submit (w : World) e :
  chatInstance (app w) = None ->
  chatInstance (app (step w e)) <> None ->
  exists env,
    e = Submit env
    /\ JsString.truthy (trim (input (app w))) = true
    /\ isTyping (app w) = false.
Proof.
  intros Hnone Hsome.
  destruct e as [env cat|env|env p|v|env|p|env];
    try (exfalso; apply Hsome;
         match goal with
         | |- context [step ?w0 ?e] =>
             assert (Hs : chat_side (step w0 e) = chat_side w0)
               by (apply step_chat_side; [reflexivity|by left])
         end;
         apply chat_side_inv in Hs as (_ & _ & -> & _); done).
  - exists env. split; [done|].
    destruct (isTyping (app w)) eqn:Hty.
    { exfalso. apply Hsome. simpl. by rewrite handleChat_typing. }
    destruct (JsString.truthy (trim (input (app w)))) eqn:Hin; [done|].
    exfalso. apply Hsome. simpl. rewrite handleChat_blank; [done|].
    by destruct (trim (input (app w))).
  - exfalso. apply Hsome. destruct (chatInFlight w) eqn:Hfl.
    { simpl. by rewrite Hfl. }
    destruct (step_chat_settled w p) as (_ & _ & -> & _); [by rewrite Hfl|done].
Qed.

(** C6. The page starts without a chat session.  Nothing but an accepted
    submission creates one.  The first submission that
    is accepted creates one, configured with the system instruction built
    from the date, time and ISO timestamp of that moment.  From then on the
    ref cell holds that same session for good: in every later state the log
    shows exactly one creation, with that instruction, and every chat
    message has been sent on that session; the instruction a later turn
    builds from its own clock is not used. *)
Theorem chat_session_created_once env0 (events : list Event) :
  chatInstance (app (mount env0)) = None
  /\ length (creations (log (run (mount env0) events))) <= 1
  /\ (chatInstance (app (run (mount env0) events)) = None ->
      creations (log (run (mount env0) events)) = []
      /\ sessions_used (log (run (mount env0) events)) = []
      /\ forall env,
          JsString.truthy (trim (input (app (run (mount env0) events)))) = true ->
          isTyping (app (run (mount env0) events)) = false ->
          chatInstance (app (step (run (mount env0) events) (Submit env)))
            = Some {| chat_model := MODEL;
                      chat_systemInstruction := system_instruction env |}
          /\ creations (log (step (run (mount env0) events) (Submit env)))
             = [system_instruction env])
  /\ (forall c,
      chatInstance (app (run (mount env0) events)) = Some c ->
      forall more,
        chatInstance (app (run (run (mount env0) events) more)) = Some c
        /\ creations (log (run (run (mount env0) events) more))
           = [chat_systemInstruction c]
        /\ Forall (eq c) (sessions_used (log (run (run (mount env0) events) more))))
  /\ (forall e,
      chatInstance (app (run (mount env0) events)) = None ->
      chatInstance (app (step (run (mount env0) events) e)) <> None ->
      exists env,
        e = Submit env
        /\ JsString.truthy (trim (input (app (run (mount env0) events)))) = true
        /\ isTyping (app (run (mount env0) events)) = false)
  /\ (forall env,
      Contains (system_instruction env) (toLocaleDateString (language env) (now env))
      /\ Contains (system_instruction env) (toLocaleTimeString (language env) (now env))
      /\ Contains (system_instruction env) (toISOString (now env))).
Proof.
  pose proof (one_session_run (mount env0) events (one_session_mount env0)) as Hone.
  split; [done|]. split.
  { unfold one_session in Hone.
    destruct (chatInstance (app (run (mount env0) events))).
    - destruct Hone as (-> & _). simpl. lia.
    - destruct Hone as (-> & _). simpl. lia. }
  split.
  { intros Hnone. unfold one_session in Hone. rewrite Hnone in Hone.
    destruct Hone as (Hcr & Hsu). split; [done|]. split; [done|].
    intros env Hin Hty.
    destruct (handleChat_accepted env _ Hin Hty) as (_ & _ & _ & _ & _ & _ & Hc & Hlog).
    simpl step. rewrite Hc, Hlog, Hnone, !creations_app, Hcr. done. }
  split.
  { intros c Hc more.
    pose proof (chatInstance_run _ more c Hc) as Hc'.
    pose proof (one_session_run _ more Hone) as Hone'.
    unfold one_session in Hone'. rewrite Hc' in Hone'.
    destruct Hone' as (? & _ & ?). done. }
  split.
  { intros e Hnone Hsome. by apply (chatInstance_created_by_submit _ e) in Hnone. }
  intros env. unfold system_instruction. cbn [fullDate exactTime iso].
  repeat split; find_in_template.
Qed.

(** *** Category selection *)

(** C8 (as amended). Selecting a category of the enumeration issues one
    retrieval call when the category differs from the one currently
    selected, and none when it is the current one (the effect depends on the
    selected category and does not run again); the prompt of the call quotes
    the category's token.  The first render issues the one call for the
    initial category. *)
Theorem selectCategory_retrieves_on_change env cat (w : World) :
  cat ∈ CATEGORY_LIST ->
  log (selectCategory env cat w)
    = log w ++ (if String.eqb (selectedCategory (app w)) cat then []
                else [GenerateContent MODEL (news_prompt toISOString env cat)])
  /\ retrievals (log (selectCategory env cat w))
     = retrievals (log w)
       ++ (if String.eqb (selectedCategory (app w)) cat then []
           else [news_prompt toISOString env cat])
  /\ Contains (news_prompt toISOString env cat) (dquote +:+ cat +:+ dquote)
  /\ Contains (news_prompt toISOString env cat) cat
  /\ selectedCategory (app (selectCategory env cat w)) = cat
  /\ retrievals (log (mount env)) = [news_prompt toISOString env "General"].
Proof.
  intros _.
  assert (Hlog : log (selectCategory env cat w)
    = log w ++ (if String.eqb (selectedCategory (app w)) cat then []
                else [GenerateContent MODEL (news_prompt toISOString env cat)])).
  { unfold selectCategory. destruct (String.eqb (selectedCategory (app w)) cat); simpl.
    - by rewrite app_nil_r.
    - done. }
  split; [done|]. split.
  { rewrite Hlog, retrievals_app. by destruct (String.eqb _ _). }
  split; [|split; [|split]].
  - unfold news_prompt. apply Contains_append_r.
    exists "", (" in " +:+ language env +:+ "." +:+ nl +:+
    "    MANDATORY RULES: " +:+ nl +:+
    "    - ONLY confirmed facts. Current date: " +:+ toISOString (now env) +:+ "." +:+ nl +:+
    "    - Double source rule (isVerified=true only if 2+ major outlets)." +:+ nl +:+
    "    - Tone: Professional, zero opinion." +:+ nl +:+
    "    - Response: JSON array of objects." +:+ nl +:+
    "    - Fields: id, title, summary, sources (array), url, timestamp, category, isVerified (boolean), verificationDetails.").
    cbn [append]. by rewrite !append_assoc.
  - unfold news_prompt. find_in_template.
  - unfold selectCategory. by destruct (String.eqb _ _).
  - done.
Qed.

(** *** Report export *)

Lemma NewsItem_object_shows (n : NewsItem) : shows (NewsItem_object n) n.
Proof.
  unfold shows, NewsItem_object. destruct (groundingSources n); repeat split;
    by simplify_map_eq.
Qed.

Lemma annotate_shows g (n : NewsItem) : shows (annotate g (JObj (NewsItem_object n))) n.
Proof.
  destruct (NewsItem_object_shows n) as (? & ? & ? & ? & ?).
  unfold shows, annotate. simpl. rewrite !lookup_insert_ne by done. done.
Qed.

Lemma csv_row_typed (o : gmap string json) (n : NewsItem) :
  shows o n -> Js.join "," (csv_row o) = report_line n.
Proof.
  intros (Ht & Hc & Hv & Hts & Hu). unfold csv_row. rewrite Ht, Hc, Hv, Hts, Hu.
  unfold Js.join, report_line. simpl.
  destruct (isVerified n); simpl; by rewrite !append_assoc.
Qed.

Lemma of_Z_reads_back (z : Z) :
  Z.of_int <$> NilZero.int_of_string (of_Z z) = Some z.
Proof.
  unfold of_Z. rewrite NilZero.isi.
  - simpl. by rewrite DecimalZ.of_to.
  - destruct z as [|p|p]; simpl; [done| |done].
    intros [= H]. by apply (DecimalPos.Unsigned.to_uint_nonnil p).
  - destruct z as [|p|p]; simpl; [done|done|].
    intros [= H]. by apply (DecimalPos.Unsigned.to_uint_nonnil p).
Qed.

Lemma csv_of_typed (objects : list (gmap string json)) (items : list NewsItem) :
  Forall2 shows objects items ->
  csv_of objects
  = String.concat nl ("Title,Category,Verified,Time,URL" :: map report_line items).
Proof.
  intros H. unfold csv_of. cbn [map]. rewrite List.map_map.
  replace (map (fun x => Js.join "," (csv_row x)) objects) with (map report_line items).
  - reflexivity.
  - induction H as [|o n objects items Hon _ IH]; simpl; [done|].
    by rewrite IH, (csv_row_typed o n Hon).
Qed.

(** C9. For a displayed list of well-typed news items (objects whose
    [title], [category], [timestamp] and [url] are strings and whose
    [isVerified] is a boolean), the exporter offers for download a
    [text/csv] file whose content is the header line
    [Title,Category,Verified,Time,URL] followed, in list order, by one line
    per item: the title between double quotes, the category, [YES] or [NO]
    for the verification flag, the timestamp and the URL, separated by
    commas; lines are separated by a line feed.  The file is named
    [MrDaniel_Report_], the decimal digits of the clock's epoch
    milliseconds, [.csv].  The page itself is not changed. *)
Theorem exportCSV_report env (items : list NewsItem) (w : World) :
  Forall2 shows (news (app w)) items ->
  exists digits,
    log (exportCSV env w)
      = log w
        ++ [Download ("MrDaniel_Report_" +:+ digits +:+ ".csv") "text/csv"
              (String.concat nl
                 ("Title,Category,Verified,Time,URL" :: map report_line items))]
    /\ Z.of_int <$> NilZero.int_of_string digits = Some (now env)
    /\ app (exportCSV env w) = app w.
Proof.
  intros Hnews. exists (of_Z (now env)).
  split; [|split; [apply of_Z_reads_back|done]].
  unfold exportCSV, report_filename, emit. cbn [log].
  by rewrite (csv_of_typed _ _ Hnews).
Qed.

End Properties.

(** ** Closed instances *)

Lemma fetchNews_failure_keeps_news_witness :
  retrieval_fails Sample.JSON_parse
    (Js.Fulfilled (Sample.response (Some "Service unavailable") []))
  /\ news (app (fetchNews_settled Sample.JSON_parse Sample.env
                  (Js.Fulfilled (Sample.response (Some "Service unavailable") []))
                  Sample.loaded).1)
     = news (app Sample.loaded).
Proof.
  split; [reflexivity|].
  exact (proj1 (proj2 (fetchNews_failure_keeps_news
    Sample.JSON_parse Sample.toISOString Sample.toLocaleDateString
    Sample.toLocaleTimeString Sample.env "General" Sample.env
    (Js.Fulfilled (Sample.response (Some "Service unavailable") []))
    Sample.mount Sample.loaded eq_refl))).
Defined.

Lemma fetchNews_empty_text_clears_news_witness :
  length (news (app Sample.loaded)) = 3
  /\ news (app (fetchNews_settled Sample.JSON_parse Sample.env
                  (Js.Fulfilled (Sample.response (Some "") [])) Sample.loaded).1) = [].
Proof.
  split; [reflexivity|].
  exact (proj1 (proj2 (proj2 (fetchNews_empty_text_clears_news
    Sample.JSON_parse Sample.env (Sample.response (Some "") []) Sample.loaded
    (or_intror eq_refl) eq_refl)))).
Defined.

Lemma fetchNews_shares_grounding_witness :
  Forall (fun n : gmap string json =>
            n !! "groundingSources" = Some (JArr [Sample.citation]))
    (news (app (fetchNews_settled Sample.JSON_parse Sample.env
                  (Js.Fulfilled (Sample.response (Some Sample.three_items_text)
                                   [Sample.chunk]))
                  Sample.mount).1)).
Proof.
  exact (proj1 (proj2 (proj2 (fetchNews_shares_grounding
    Sample.JSON_parse Sample.env
    (Sample.response (Some Sample.three_items_text) [Sample.chunk])
    Sample.three_items Sample.mount eq_refl)))).
Defined.

Lemma handleChat_ignores_blank_input_witness :
  whitespace_only (input (app (Sample.step Sample.loaded (ChangeInput "   "))))
  /\ Sample.step (Sample.step Sample.loaded (ChangeInput "   ")) (Submit Sample.env)
     = Sample.step Sample.loaded (ChangeInput "   ").
Proof.
  assert (H : whitespace_only (input (app (Sample.step Sample.loaded (ChangeInput "   "))))).
  { repeat constructor. }
  split; [exact H|].
  exact (proj1 (proj2 (handleChat_ignores_blank_input
    Sample.JSON_parse Sample.toISOString Sample.toLocaleDateString
    Sample.toLocaleTimeString Sample.env _ H))).
Defined.

Lemma chat_gate_single_flight_witness :
  isTyping (app (Sample.run Sample.mount [ChangeInput "hola"; Submit Sample.env])) = true
  /\ chatInFlight (Sample.run Sample.mount [ChangeInput "hola"; Submit Sample.env]) <= 1.
Proof.
  split; [reflexivity|].
  exact (proj1 (chat_gate_single_flight
    Sample.JSON_parse Sample.toISOString Sample.toLocaleDateString
    Sample.toLocaleTimeString Sample.env [ChangeInput "hola"; Submit Sample.env])).
Defined.

Lemma handleChat_failure_keeps_user_message_witness :
  chatMessages
    (app (Sample.step
            (Sample.run
               (Sample.step (Sample.step Sample.loaded (ChangeInput "hola"))
                  (Submit Sample.env))
               [ChangeInput "otra"; Submit Sample.env; Refresh Sample.env])
            (ChatSettled (Js.Rejected (Js.ProviderError "503")))))
  = [{| role := user; text := Some "hola" |}].
Proof.
  exact (proj1 (handleChat_failure_keeps_user_message
    Sample.JSON_parse Sample.toISOString Sample.toLocaleDateString
    Sample.toLocaleTimeString Sample.env (Js.ProviderError "503")
    (Sample.step Sample.loaded (ChangeInput "hola"))
    [ChangeInput "otra"; Submit Sample.env; Refresh Sample.env]
    eq_refl eq_refl eq_refl)).
Defined.

Lemma transcript_append_only_witness :
  chatMessages
    (app (Sample.run Sample.mount
            (concat (map turn_events
               [ {| turn_before := [ChangeInput "h"];
                    turn_message := "hola";
                    turn_env := Sample.env;
                    turn_during := [Submit Sample.env; Refresh Sample.env];
                    turn_reply := Sample.response (Some "Buenos días") [] |};
                 {| turn_before := [];
                    turn_message := "¿qué pasó hoy?";
                    turn_env := Sample.env;
                    turn_during := [];
                    turn_reply := Sample.response None [] |} ]))))
  = [ {| role := user; text := Some "hola" |};
      {| role := model; text := Some "Buenos días" |};
      {| role := user; text := Some "¿qué pasó hoy?" |};
      {| role := model; text := None |} ].
Proof.
  refine (proj1 (proj2 (transcript_append_only
    Sample.JSON_parse Sample.toISOString Sample.toLocaleDateString
    Sample.toLocaleTimeString Sample.env _ _))).
  repeat constructor.
Defined.

Lemma chat_session_created_once_witness :
  creations
    (log (Sample.run
            (Sample.run Sample.mount [ ChangeInput "hola"; Submit Sample.env ])
            [ ChatSettled (Js.Fulfilled (Sample.response (Some "Buenos días") []));
              ChangeInput "sigue";
              Submit {| now := 60000; language := "es-ES" |} ]))
  = [ system_instruction Sample.toISOString Sample.toLocaleDateString
        Sample.toLocaleTimeString Sample.env ].
Proof.
  refine (proj1 (proj2 (proj1 (proj2 (proj2 (proj2 (chat_session_created_once
    Sample.JSON_parse Sample.toISOString Sample.toLocaleDateString
    Sample.toLocaleTimeString Sample.env
    [ ChangeInput "hola"; Submit Sample.env ]))))
    {| chat_model := MODEL;
       chat_systemInstruction :=
         system_instruction Sample.toISOString Sample.toLocaleDateString
           Sample.toLocaleTimeString Sample.env |}
    _
    [ ChatSettled (Js.Fulfilled (Sample.response (Some "Buenos días") []));
      ChangeInput "sigue";
      Submit {| now := 60000; language := "es-ES" |} ]))).
  vm_compute. reflexivity.
Defined.

Lemma selectCategory_retrieves_on_change_witness :
  retrievals (log (selectCategory Sample.toISOString Sample.env "Salud" Sample.loaded))
  = retrievals (log Sample.loaded)
    ++ [news_prompt Sample.toISOString Sample.env "Salud"].
Proof.
  refine (proj1 (proj2 (selectCategory_retrieves_on_change
    Sample.toISOString Sample.env "Salud" Sample.loaded _))).
  unfold CATEGORY_LIST. set_solver.
Defined.

(** Selecting the category that is already selected issues no retrieval
    call. *)
Lemma selectCategory_current_issues_no_call :
  "General" ∈ CATEGORY_LIST
  /\ selectedCategory (app Sample.loaded) = "General"
  /\ retrievals (log (selectCategory Sample.toISOString Sample.env "General" Sample.loaded))
     = retrievals (log Sample.loaded)
  /\ ~ (exists prompt,
         retrievals
           (log (selectCategory Sample.toISOString Sample.env "General" Sample.loaded))
         = retrievals (log Sample.loaded) ++ [prompt]).
Proof.
  split; [unfold CATEGORY_LIST; set_solver|].
  split; [reflexivity|]. split; [reflexivity|].
  intros (prompt & H). apply (f_equal length) in H. vm_compute in H. discriminate H.
Qed.

Lemma exportCSV_report_witness :
  exists digits,
    log (exportCSV Sample.env Sample.showing_item)
      = log Sample.showing_item
        ++ [Download ("MrDaniel_Report_" +:+ digits +:+ ".csv") "text/csv"
              (String.concat nl
                 ("Title,Category,Verified,Time,URL" :: map report_line [Sample.item]))]
    /\ Z.of_int <$> NilZero.int_of_string digits = Some (now Sample.env)
    /\ app (exportCSV Sample.env Sample.showing_item) = app Sample.showing_item.
Proof.
  refine (exportCSV_report Sample.env [Sample.item] Sample.showing_item _).
  repeat constructor.
Defined.

(** ** Worked examples *)

Example trim_examples :
  trim "  hola  " = "hola"
  /\ trim (String (byte 226) (String (byte 128) (String (byte 131) " a b "))) = "a b"
  /\ trim (String (byte 9) (String (byte 10) " ")) = ""
  /\ trim "" = "".
Proof. repeat split; reflexivity. Qed.

Example of_Z_examples :
  of_Z 1700000000000 = "1700000000000" /\ of_Z 0 = "0" /\ of_Z (-5) = "-5".
Proof. repeat split; reflexivity. Qed.

(** The report of one well-typed item, and of an object with none of the
    fields. *)
Example csv_of_examples :
  csv_of [NewsItem_object Sample.item]
  = "Title,Category,Verified,Time,URL" +:+ nl +:+
    dquote +:+ "Rates held" +:+ dquote +:+
    ",Economía,YES,2024-01-01T10:00:00Z,https://n.example/1"
  /\ csv_of [∅]
     = "Title,Category,Verified,Time,URL" +:+ nl +:+
       dquote +:+ "undefined" +:+ dquote +:+ ",,NO,,".
Proof. split; vm_compute; reflexivity. Qed.

Example report_filename_example :
  report_filename {| now := 1700000000000; language := "es-ES" |}
  = "MrDaniel_Report_1700000000000.csv".
Proof. reflexivity. Qed.

(** One citation alongside three items: every displayed item carries the
    list made of that citation, and keeps its own fields. *)
Example loaded_example :
  map (fun n : gmap string json => (n !! "id", n !! "groundingSources"))
    (news (app Sample.loaded))
  = [ (Some (JStr "1"), Some (JArr [Sample.citation]));
      (Some (JStr "2"), Some (JArr [Sample.citation]));
      (Some (JStr "3"), Some (JArr [Sample.citation])) ]
  /\ loading (app Sample.loaded) = false
  /\ newsInFlight Sample.loaded = 0.
Proof. repeat split; vm_compute; reflexivity. Qed.

(** Spreading an array copies its elements under their indices; spreading
    [null] copies nothing. *)
Example spread_examples :
  annotate JNull (JArr [JStr "a"; JStr "b"])
  = <["groundingSources" := JNull]> (<["0" := JStr "a"]> {["1" := JStr "b"]})
  /\ annotate (JArr []) JNull = {["groundingSources" := JArr []]}.
Proof. split; apply map_eq; intros k; vm_compute; reflexivity. Qed.

(** ** Further properties *)

Section MoreProperties.

Variable JSON_parse : string -> option json.
Variable toISOString : Z -> string.
Variable toLocaleDateString : string -> Z -> string.
Variable toLocaleTimeString : string -> Z -> string.

#[local] Abbreviation fetchNews := (fetchNews toISOString).
#[local] Abbreviation fetchNews_try := (fetchNews_try JSON_parse).
#[local] Abbreviation fetchNews_settled := (fetchNews_settled JSON_parse).
#[local] Abbreviation selectCategory := (selectCategory toISOString).
#[local] Abbreviation refresh := (refresh toISOString).
#[local] Abbreviation news_prompt := (news_prompt toISOString).
#[local] Abbreviation system_instruction :=
  (system_instruction toISOString toLocaleDateString toLocaleTimeString).
#[local] Abbreviation handleChat :=
  (handleChat toISOString toLocaleDateString toLocaleTimeString).
#[local] Abbreviation onKeyDown :=
  (onKeyDown toISOString toLocaleDateString toLocaleTimeString).
#[local] Abbreviation step :=
  (step JSON_parse toISOString toLocaleDateString toLocaleTimeString).
#[local] Abbreviation run :=
  (run JSON_parse toISOString toLocaleDateString toLocaleTimeString).
#[local] Abbreviation mount := (mount toISOString).

(** *** Settlement of a retrieval *)

(** What the settlement of a retrieval does to the page, by outcome of the
    [try] block. *)
Lemma step_news_settled (w : World) env p :
  newsInFlight w <> 0 ->
  newsInFlight (step w (NewsSettled env p)) = pred (newsInFlight w)
  /\ loading (app (step w (NewsSettled env p))) = false
  /\ selectedCategory (app (step w (NewsSettled env p))) = selectedCategory (app w)
  /\ match fetchNews_try p with
     | Js.Normal data =>
         news (app (step w (NewsSettled env p))) = data
         /\ lastSync (app (step w (NewsSettled env p))) = now env
         /\ log (step w (NewsSettled env p)) = log w
     | Js.Throw err =>
         news (app (step w (NewsSettled env p))) = news (app w)
         /\ lastSync (app (step w (NewsSettled env p))) = lastSync (app w)
         /\ log (step w (NewsSettled env p))
            = log w ++ [ConsoleError "Critical news engine failure:" err]
     end.
Proof.
  intros Hfl. unfold step. destruct (newsInFlight w) eqn:E; [done|].
  unfold fetchNews_settled, detach.
  destruct (fetchNews_try p); simpl; rewrite ?E; done.
Qed.

(** X1. A response whose text is valid JSON but not an array (an object, a
    string, a number, [null]) makes [.map] throw a [TypeError] inside the
    [try] block: the error is caught and logged, the list and the
    last-synchronised time stay, and the spinner stops. *)
Theorem fetchNews_non_array_is_caught env r v (w : World) :
  JSON_parse (text_or_empty_array r) = Some v ->
  (forall items, v <> JArr items) ->
  newsInFlight w <> 0 ->
  fetchNews_try (Js.Fulfilled r) = Js.Throw Js.TypeError
  /\ news (app (step w (NewsSettled env (Js.Fulfilled r)))) = news (app w)
  /\ lastSync (app (step w (NewsSettled env (Js.Fulfilled r)))) = lastSync (app w)
  /\ loading (app (step w (NewsSettled env (Js.Fulfilled r)))) = false
  /\ log (step w (NewsSettled env (Js.Fulfilled r)))
     = log w ++ [ConsoleError "Critical news engine failure:" Js.TypeError].
Proof.
  intros Hparse Hv Hfl.
  assert (Htry : fetchNews_try (Js.Fulfilled r) = Js.Throw Js.TypeError).
  { unfold fetchNews_try. simpl. unfold mbind, Completion_bind. simpl.
    rewrite Hparse. simpl. destruct v; try done. by destruct (Hv items). }
  split; [done|].
  destruct (step_news_settled w env (Js.Fulfilled r) Hfl) as (_ & Hl & _ & H).
  rewrite Htry in H. destruct H as (? & ? & ?). done.
Qed.

(** X2. A successful retrieval replaces the displayed list wholesale: the
    new list is a function of the response alone, nothing of the previous
    list is kept.  With two retrievals in flight, the page ends up showing
    the response that settles last, stamped with the time of that
    settlement, whichever call was issued first. *)
Theorem news_last_settlement_wins env1 env2 r1 r2 items1 items2 (w : World) :
  2 <= newsInFlight w ->
  JSON_parse (text_or_empty_array r1) = Some (JArr items1) ->
  JSON_parse (text_or_empty_array r2) = Some (JArr items2) ->
  news (app (step w (NewsSettled env1 (Js.Fulfilled r1))))
    = map (annotate (grounding_of r1)) items1
  /\ news (app (run w [ NewsSettled env1 (Js.Fulfilled r1);
                        NewsSettled env2 (Js.Fulfilled r2) ]))
     = map (annotate (grounding_of r2)) items2
  /\ lastSync (app (run w [ NewsSettled env1 (Js.Fulfilled r1);
                            NewsSettled env2 (Js.Fulfilled r2) ]))
     = now env2
  /\ newsInFlight (run w [ NewsSettled env1 (Js.Fulfilled r1);
                           NewsSettled env2 (Js.Fulfilled r2) ])
     = newsInFlight w - 2.
Proof.
  intros Hfl H1 H2.
  destruct (step_news_settled w env1 (Js.Fulfilled r1)) as (Hn1 & _ & _ & Hd1); [lia|].
  rewrite (fetchNews_try_array JSON_parse r1 items1 H1) in Hd1.
  destruct Hd1 as (Hnews1 & _ & _). split; [done|].
  change (run w [NewsSettled env1 (Js.Fulfilled r1); NewsSettled env2 (Js.Fulfilled r2)])
    with (step (step w (NewsSettled env1 (Js.Fulfilled r1)))
            (NewsSettled env2 (Js.Fulfilled r2))).
  destruct (step_news_settled (step w (NewsSettled env1 (Js.Fulfilled r1))) env2
              (Js.Fulfilled r2)) as (Hn2 & _ & _ & Hd2); [rewrite Hn1; lia|].
  rewrite (fetchNews_try_array JSON_parse r2 items2 H2) in Hd2.
  destruct Hd2 as (Hnews2 & Hsync2 & _).
  rewrite Hnews2, Hsync2, Hn2, Hn1. repeat split; try done. lia.
Qed.


Lemma filter_Boolean_some v (l : list (option json)) :
  filter_Boolean (Some v :: l)
  = if Js.truthy (Some v) then v :: filter_Boolean l else filter_Boolean l.
Proof. reflexivity. Qed.

Lemma filter_Boolean_length (l : list (option json)) :
  length (filter_Boolean l) <= length l.
Proof.
  induction l as [|[v|] l IH].
  - simpl. lia.
  - rewrite filter_Boolean_some. destruct (Js.truthy (Some v)); simpl; lia.
  - simpl. lia.
Qed.

Lemma filter_Boolean_elem (l : list (option json)) v :
  v ∈ filter_Boolean l <-> Some v ∈ l /\ Js.truthy (Some v) = true.
Proof.
  induction l as [|[x|] l IH]; [simpl|rewrite filter_Boolean_some|simpl].
  - split; [by intros ?%elem_of_nil|by intros [?%elem_of_nil _]].
  - destruct (Js.truthy (Some x)) eqn:Hx.
    + rewrite !elem_of_cons, IH. split.
      * intros [->|[? ?]]; [by split; [left|]|by split; [right|]].
      * intros [[[= ->]|?] ?]; [by left|by right].
    + rewrite elem_of_cons, IH. split.
      * intros [? ?]. by split; [right|].
      * intros [[[= ->]|?] Ht]; [congruence|done].
  - rewrite elem_of_cons, IH. split.
    + intros [? ?]. by split; [right|].
    + intros [[?|?] ?]; done.
Qed.

(** X4. The citations of a response are read from its first candidate only.
    A response without candidates, without grounding metadata or without
    chunks gives none; otherwise the citations are exactly the [web] parts
    that are present (and truthy) among the first candidate's chunks, so
    there are never more citations than chunks. *)
Theorem grounding_of_first_candidate r :
  (candidates r = None \/ candidates r = Some [] -> grounding_of r = JArr [])
  /\ (forall c others,
      candidates r = Some (c :: others) ->
      groundingMetadata c = None \/
      (exists gm, groundingMetadata c = Some gm /\ groundingChunks gm = None) ->
      grounding_of r = JArr [])
  /\ (forall c others gm chunks,
      candidates r = Some (c :: others) ->
      groundingMetadata c = Some gm ->
      groundingChunks gm = Some chunks ->
      exists cited,
        grounding_of r = JArr cited
        /\ length cited <= length chunks
        /\ (forall v, v ∈ cited <->
                      (exists chunk, chunk ∈ chunks /\ web chunk = Some v)
                      /\ Js.truthy (Some v) = true)
        /\ forall others' t,
             grounding_of {| candidates := Some (c :: others'); response_text := t |}
             = JArr cited).
Proof.
  unfold grounding_of. split; [|split].
  - by intros [-> | ->].
  - intros c others -> [Hm | (gm & Hm & Hc)]; cbn; rewrite Hm; cbn; [done|].
    by rewrite Hc.
  - intros c others gm chunks -> Hm Hc. cbn. rewrite Hm. cbn. rewrite Hc.
    exists (filter_Boolean (map web chunks)). split; [done|].
    split; [etrans; [apply filter_Boolean_length|by rewrite length_map]|].
    split.
    + intros v. rewrite filter_Boolean_elem, list_elem_of_fmap. split.
      * intros [(chunk & ? & ?) ?]. split; [by exists chunk|done].
      * intros [(chunk & ? & ?) ?]. split; [by exists chunk|done].
    + done.
Qed.

(** *** Invariants of the page *)

Lemma run_invariant (P : World -> Prop) :
  (forall w e, P w -> P (step w e)) ->
  forall w es, P w -> P (run w es).
Proof.
  intros Hstep w es. revert w.
  induction es as [|e es IH]; intros w Hw; [done|].
  apply (IH (step w e)). by apply Hstep.
Qed.

Ltac page_cases :=
  unfold step, selectCategory, refresh, exportCSV, fetchNews, fetchNews_settled,
    handleChat, ensure_chat, handleChat_settled, detach;
  simpl;
  repeat match goal with
    | |- context [match chatInstance (app ?w) with _ => _ end] =>
        destruct (chatInstance (app w)) eqn:?
    | |- context [match ?x with _ => _ end] => destruct x eqn:?
    end;
  simpl.

Lemma news_accounting_step (w : World) e :
  news_accounting w -> news_accounting (step w e).
Proof.
  unfold news_accounting. intros (Hload & Hcount).
  destruct e; page_cases;
    rewrite ?retrievals_app; simpl; rewrite ?length_app; simpl;
    (split; [intros; try done; try lia; auto | lia]).
Qed.

(** X5. The spinner and the pending retrievals: on every state the page can
    reach, no retrieval is pending only if [loading] is off, and never more
    retrievals are pending than were issued.  The converse fails: when two or
    more retrievals are pending, the first settlement turns [loading] off
    although a retrieval is still pending. *)
Theorem news_spinner_accounting env0 (events : list Event) :
  (newsInFlight (run (mount env0) events) = 0 ->
   loading (app (run (mount env0) events)) = false)
  /\ newsInFlight (run (mount env0) events)
     <= length (retrievals (log (run (mount env0) events)))
  /\ (forall env p,
      2 <= newsInFlight (run (mount env0) events) ->
      loading (app (step (run (mount env0) events) (NewsSettled env p))) = false
      /\ 1 <= newsInFlight (step (run (mount env0) events) (NewsSettled env p))).
Proof.
  assert (Hacc : news_accounting (run (mount env0) events)).
  { apply run_invariant; [apply news_accounting_step|]. split; simpl; [done|lia]. }
  destruct Hacc as (? & ?). split; [done|]. split; [done|].
  intros env p Hfl.
  destruct (step_news_settled (run (mount env0) events) env p) as (-> & -> & _); [lia|].
  split; [done|lia].
Qed.



(** X7. The refresh button is never gated: each press issues one more
    retrieval for the category selected at that moment, also while earlier
    retrievals are pending, so [n] presses in a row leave [n] more calls in
    flight. *)
Theorem refresh_is_never_gated (w : World) (envs : list Env) :
  retrievals (log (run w (map Refresh envs)))
    = retrievals (log w)
      ++ map (fun env => news_prompt env (selectedCategory (app w))) envs
  /\ newsInFlight (run w (map Refresh envs)) = newsInFlight w + length envs
  /\ news (app (run w (map Refresh envs))) = news (app w)
  /\ selectedCategory (app (run w (map Refresh envs))) = selectedCategory (app w)
  /\ (envs <> [] -> loading (app (run w (map Refresh envs))) = true).
Proof.
  revert w. induction envs as [|env envs IH]; intros w.
  - simpl. rewrite app_nil_r. repeat split; try done; lia.
  - change (run w (map Refresh (env :: envs)))
      with (run (step w (Refresh env)) (map Refresh envs)).
    destruct (IH (step w (Refresh env))) as (Hr & Hn & Hnews & Hcat & Hload).
    rewrite Hr, Hn, Hnews, Hcat. unfold step, refresh, fetchNews. simpl.
    rewrite retrievals_app. simpl. rewrite <- app_assoc. simpl.
    repeat split; try done; try lia.
    intros _. destruct envs as [|env' envs]; [done|]. by apply Hload.
Qed.

(** X8. Selecting a category shows the news view and closes the drawer, but
    leaves the displayed list alone: the previous category's list stays on
    screen under the new heading until a retrieval succeeds, and for good if
    the retrieval fails. *)
Theorem selectCategory_keeps_list_until_success env cat (w : World) :
  news (app (selectCategory env cat w)) = news (app w)
  /\ lastSync (app (selectCategory env cat w)) = lastSync (app w)
  /\ selectedCategory (app (selectCategory env cat w)) = cat
  /\ activeView (app (selectCategory env cat w)) = NewsView
  /\ isDrawerOpen (app (selectCategory env cat w)) = false
  /\ (forall env' p,
      retrieval_fails JSON_parse p ->
      news (app (step (selectCategory env cat w) (NewsSettled env' p))) = news (app w)
      /\ selectedCategory (app (step (selectCategory env cat w) (NewsSettled env' p)))
         = cat).
Proof.
  assert (H : news (app (selectCategory env cat w)) = news (app w)
              /\ selectedCategory (app (selectCategory env cat w)) = cat).
  { unfold selectCategory. by destruct (String.eqb _ _). }
  destruct H as (Hnews & Hcat).
  split; [done|]. split; [unfold selectCategory; by destruct (String.eqb _ _)|].
  split; [done|]. split; [unfold selectCategory; by destruct (String.eqb _ _)|].
  split; [unfold selectCategory; by destruct (String.eqb _ _)|].
  intros env' p Hfail.
  destruct (fetchNews_try_fails JSON_parse p Hfail) as (err & Herr).
  destruct (newsInFlight (selectCategory env cat w)) eqn:Hfl.
  - unfold step. by rewrite Hfl.
  - destruct (step_news_settled (selectCategory env cat w) env' p) as (_ & _ & Hc & Hd);
      [by rewrite Hfl|].
    rewrite Herr in Hd. destruct Hd as (-> & _). by rewrite Hc.
Qed.

(** *** The transcript and the messages sent *)

Lemma replies_follow_user_cons b x (l : list ChatMessage) :
  replies_follow_user b (x :: l)
  = match role x with
    | user => replies_follow_user true l
    | model => b && replies_follow_user false l
    end.
Proof. reflexivity. Qed.

Lemma replies_follow_user_snoc_user b (l : list ChatMessage) m :
  role m = user ->
  replies_follow_user b (l ++ [m]) = replies_follow_user b l.
Proof.
  intros Hm. revert b. induction l as [|x l IH]; intros b; simpl.
  - by rewrite Hm.
  - destruct (role x); by rewrite IH.
Qed.

Lemma replies_follow_user_snoc_model b (l : list ChatMessage) m m' :
  role m = model -> last l = Some m' -> role m' = user ->
  replies_follow_user b l = true ->
  replies_follow_user b (l ++ [m]) = true.
Proof.
  intros Hm Hlast Hm'. revert b. induction l as [|x l IH]; intros b; [done|].
  destruct l as [|y l].
  - simpl in Hlast. injection Hlast as ->. simpl. by rewrite Hm', Hm.
  - change (last (x :: y :: l)) with (last (y :: l)) in Hlast.
    specialize (IH Hlast).
    rewrite <- app_comm_cons, !(replies_follow_user_cons _ x).
    destruct (role x); [apply IH|].
    intros [-> H]%andb_prop. by rewrite (IH false H).
Qed.

Lemma replies_follow_user_adjacent b (l : list ChatMessage) i m1 m2 :
  replies_follow_user b l = true ->
  l !! i = Some m1 -> l !! S i = Some m2 -> role m2 = model -> role m1 = user.
Proof.
  revert b i. induction l as [|x l IH]; intros b i H H1 H2 Hm2; [done|].
  destruct i as [|i].
  - simpl in H1. injection H1 as ->. destruct l as [|y l]; [done|].
    simpl in H2. injection H2 as ->. simpl in H. rewrite Hm2 in H.
    destruct (role m1); [done|]. by rewrite andb_false_r in H.
  - simpl in H. destruct (role x).
    + by apply (IH true i).
    + apply andb_prop in H as [_ H]. by apply (IH false i).
Qed.

Lemma transcript_shape_step (w : World) e :
  gate_closed_while_pending w /\ transcript_shape w ->
  gate_closed_while_pending (step w e) /\ transcript_shape (step w e).
Proof.
  intros (Hgate & Hshape & Hlast).
  split; [by apply gate_step|]. unfold transcript_shape.
  assert (Hside : chat_side (step w e) = chat_side w ->
                  transcript_shape (step w e)).
  { intros Hs. apply chat_side_inv in Hs as (Hm & Hty & _).
    unfold transcript_shape. by rewrite Hm, Hty. }
  destruct e as [env cat|env|env p|v|env|p|env];
    try (apply Hside; apply step_chat_side; [reflexivity|by left]).
  - destruct (isTyping (app w)) eqn:Hty.
    { apply Hside, step_chat_side; [reflexivity|by right]. }
    destruct (JsString.truthy (trim (input (app w)))) eqn:Hin.
    2: { change (step w (Submit env)) with (handleChat env w).
         rewrite handleChat_blank, Hty; [done|]. by destruct (trim (input (app w))). }
    destruct (handleChat_accepted toISOString toLocaleDateString toLocaleTimeString
                env w Hin Hty) as (Hm & _ & Hty' & _).
    change (step w (Submit env)) with (handleChat env w). rewrite Hm, Hty'.
    split; [by rewrite replies_follow_user_snoc_user|].
    intros _. eexists. by rewrite last_snoc.
  - destruct (chatInFlight w) eqn:Hfl.
    { unfold step. rewrite Hfl. done. }
    destruct (step_chat_settled JSON_parse toISOString toLocaleDateString
                toLocaleTimeString w p) as (Hm & Hty & _); [by rewrite Hfl|].
    rewrite Hm, Hty. split; [|done].
    unfold gate_closed_while_pending in Hgate. rewrite Hfl in Hgate.
    destruct (isTyping (app w)); [|done].
    destruct (Hlast eq_refl) as (m' & Hl & Hu).
    destruct p; [|by rewrite app_nil_r].
    by apply (replies_follow_user_snoc_model _ _ _ m').
Qed.

(** X9. Every reply directly follows a user message: on every state the
    page can reach, the transcript does not begin with a model entry and has
    no two model entries in a row; and while a reply is awaited the
    transcript ends with the user's message. *)
Theorem replies_follow_user_messages env0 (events : list Event) :
  (forall m, head (chatMessages (app (run (mount env0) events))) = Some m ->
             role m = user)
  /\ (forall i m1 m2,
      chatMessages (app (run (mount env0) events)) !! i = Some m1 ->
      chatMessages (app (run (mount env0) events)) !! S i = Some m2 ->
      role m2 = model -> role m1 = user)
  /\ (isTyping (app (run (mount env0) events)) = true ->
      exists m, last (chatMessages (app (run (mount env0) events))) = Some m
                /\ role m = user).
Proof.
  assert (H : gate_closed_while_pending (run (mount env0) events)
              /\ transcript_shape (run (mount env0) events)).
  { apply (run_invariant (fun w => gate_closed_while_pending w /\ transcript_shape w));
      [apply transcript_shape_step|].
    split; [reflexivity|]. split; [reflexivity|]. intros [=]. }
  destruct H as (_ & Hshape & Hlast).
  split; [|split; [|done]].
  - intros m Hhead.
    destruct (chatMessages (app (run (mount env0) events))) as [|x l]; [done|].
    simpl in Hhead. injection Hhead as ->. simpl in Hshape.
    by destruct (role m).
  - intros i m1 m2. by apply (replies_follow_user_adjacent false).
Qed.

Lemma messages_sent_app l1 l2 :
  messages_sent (l1 ++ l2) = messages_sent l1 ++ messages_sent l2.
Proof. induction l1 as [|[] l1 IH]; simpl; by rewrite ?IH. Qed.

Lemma user_texts_app l1 l2 : user_texts (l1 ++ l2) = user_texts l1 ++ user_texts l2.
Proof.
  induction l1 as [|m l1 IH]; simpl; [done|]. destruct (role m); by rewrite IH.
Qed.

Lemma replies_app l1 l2 : replies (l1 ++ l2) = replies l1 + replies l2.
Proof.
  induction l1 as [|m l1 IH]; simpl; [done|]. destruct (role m); by rewrite IH.
Qed.

Lemma sent_matches_transcript_step (w : World) e :
  sent_matches_transcript w -> sent_matches_transcript (step w e).
Proof.
  unfold sent_matches_transcript. intros Hw.
  destruct e; page_cases;
    rewrite ?messages_sent_app, ?user_texts_app, ?map_app; simpl;
    rewrite ?app_nil_r, ?Hw; done.
Qed.

(** X10. The log and the transcript agree: on every state the page can
    reach, the messages sent to the provider are, in order, the texts of the
    user entries of the transcript (the raw input, not trimmed), so there is
    exactly one [sendMessage] per user entry; and there are never more
    replies than user entries. *)
Theorem sent_messages_are_user_entries env0 (events : list Event) :
  map Some (messages_sent (log (run (mount env0) events)))
    = user_texts (chatMessages (app (run (mount env0) events)))
  /\ length (messages_sent (log (run (mount env0) events)))
     = length (user_texts (chatMessages (app (run (mount env0) events))))
  /\ replies (chatMessages (app (run (mount env0) events)))
     <= length (user_texts (chatMessages (app (run (mount env0) events)))).
Proof.
  assert (H : sent_matches_transcript (run (mount env0) events)).
  { apply run_invariant; [apply sent_matches_transcript_step|]. reflexivity. }
  unfold sent_matches_transcript in H. split; [done|].
  split; [by rewrite <- H, length_map|].
  clear H.
  assert (Hgen : forall (l : list ChatMessage) b,
             replies_follow_user b l = true ->
             replies l <= length (user_texts l) + (if b then 1 else 0)).
  { induction l as [|m l IH]; intros b Hl; simpl; [lia|].
    simpl in Hl. destruct (role m).
    - specialize (IH true Hl). simpl in *. lia.
    - apply andb_prop in Hl as [-> Hl]. specialize (IH false Hl). simpl in *. lia. }
  assert (Hshape : transcript_shape (run (mount env0) events)).
  { apply (run_invariant (fun w => gate_closed_while_pending w /\ transcript_shape w));
      [apply transcript_shape_step|].
    split; [reflexivity|]. split; [reflexivity|]. intros [=]. }
  destruct Hshape as (Hshape & _). specialize (Hgen _ _ Hshape). simpl in Hgen. lia.
Qed.

(** *** Chat turns with any outcome *)

(** One turn, fulfilled or rejected. *)
Lemma run_attempt (w : World) (t : Attempt) :
  isTyping (app w) = false ->
  attempt_well_formed t ->
  chatMessages (app (run w (attempt_events t)))
    = chatMessages (app w) ++ attempt_entries t
  /\ isTyping (app (run w (attempt_events t))) = false
  /\ chatInFlight (run w (attempt_events t)) = chatInFlight w
  /\ chatInstance (app (run w (attempt_events t)))
     = Some (default {| chat_model := MODEL;
                        chat_systemInstruction := system_instruction (attempt_env t) |}
               (chatInstance (app w))).
Proof.
  intros Hty (Hbefore & Hduring & Hmsg). unfold attempt_events.
  rewrite (run_app JSON_parse toISOString toLocaleDateString toLocaleTimeString).
  pose proof (run_chat_side_idle JSON_parse toISOString toLocaleDateString
                toLocaleTimeString w _ Hbefore) as H0.
  apply chat_side_inv in H0 as (Hm0 & Hty0 & Hc0 & Hfl0 & _).
  set (w0 := run w (attempt_before t)) in *.
  rewrite <- app_comm_cons.
  change (run w0 (ChangeInput (attempt_message t)
                  :: [Submit (attempt_env t)] ++ attempt_during t
                     ++ [ChatSettled (attempt_outcome t)]))
    with (run (step (step w0 (ChangeInput (attempt_message t))) (Submit (attempt_env t)))
            (attempt_during t ++ [ChatSettled (attempt_outcome t)])).
  rewrite (run_app JSON_parse toISOString toLocaleDateString toLocaleTimeString).
  set (w1 := step w0 (ChangeInput (attempt_message t))).
  assert (Hin1 : input (app w1) = attempt_message t) by reflexivity.
  assert (Hm1 : chatMessages (app w1) = chatMessages (app w)) by (by rewrite <- Hm0).
  assert (Hty1 : isTyping (app w1) = false) by (simpl; by rewrite Hty0).
  assert (Hc1 : chatInstance (app w1) = chatInstance (app w)) by (by rewrite <- Hc0).
  assert (Hfl1 : chatInFlight w1 = chatInFlight w) by (by rewrite <- Hfl0).
  destruct (handleChat_accepted toISOString toLocaleDateString toLocaleTimeString
              (attempt_env t) w1)
    as (Hm2 & _ & Hty2 & Hfl2 & _ & _ & Hc2 & _); [by rewrite Hin1|done|].
  change (handleChat (attempt_env t) w1) with (step w1 (Submit (attempt_env t)))
    in Hm2, Hty2, Hfl2, Hc2.
  set (w2 := step w1 (Submit (attempt_env t))) in *.
  pose proof (run_chat_side_awaiting JSON_parse toISOString toLocaleDateString
                toLocaleTimeString w2 _ Hty2 Hduring) as H3.
  apply chat_side_inv in H3 as (Hm3 & _ & Hc3 & Hfl3 & _).
  set (w3 := run w2 (attempt_during t)) in *.
  destruct (step_chat_settled JSON_parse toISOString toLocaleDateString
              toLocaleTimeString w3 (attempt_outcome t))
    as (Hm4 & Hty4 & Hc4 & Hfl4 & _).
  { by rewrite Hfl3, Hfl2. }
  change (run w3 [ChatSettled (attempt_outcome t)])
    with (step w3 (ChatSettled (attempt_outcome t))).
  rewrite Hm4, Hty4, Hc4, Hfl4, Hm3, Hc3, Hfl3, Hm2, Hc2, Hfl2, Hm1, Hc1, Hfl1, Hin1.
  repeat split; try done.
  unfold attempt_entries. rewrite <- app_assoc. by destruct (attempt_outcome t).
Qed.

Lemma run_attempts (w : World) (attempts : list Attempt) :
  isTyping (app w) = false ->
  Forall attempt_well_formed attempts ->
  chatMessages (app (run w (concat (map attempt_events attempts))))
    = chatMessages (app w) ++ concat (map attempt_entries attempts)
  /\ isTyping (app (run w (concat (map attempt_events attempts)))) = false
  /\ chatInFlight (run w (concat (map attempt_events attempts))) = chatInFlight w
  /\ forall t rest,
       attempts = t :: rest ->
       chatInstance (app (run w (concat (map attempt_events attempts))))
       = Some (default {| chat_model := MODEL;
                          chat_systemInstruction :=
                            system_instruction (attempt_env t) |}
                 (chatInstance (app w))).
Proof.
  intros Hty Hall. revert w Hty.
  induction Hall as [|t attempts Ht _ IH]; intros w Hty.
  - simpl. rewrite app_nil_r. repeat split; try done.
  - cbn [map concat].
    rewrite (run_app JSON_parse toISOString toLocaleDateString toLocaleTimeString).
    destruct (run_attempt w t Hty Ht) as (Hm & Hty' & Hfl & Hc).
    destruct (IH _ Hty') as (Hm2 & Hty2 & Hfl2 & Hc2).
    rewrite Hm2, Hty2, Hfl2, Hm, Hfl, <- app_assoc.
    repeat split; try done.
    intros t' rest [= <- <-].
    destruct attempts as [|t2 attempts].
    + simpl. done.
    + rewrite (Hc2 t2 attempts eq_refl), Hc. done.
Qed.

(** X11. A conversation whose turns may fail: after any sequence of
    accepted turns, the transcript holds for each turn in order the user's
    message, followed by the reply exactly when the provider call was
    fulfilled.  A rejected turn costs its reply and nothing else: the page
    is ready for the next message, the session created by the first turn
    (and its system instruction) is the one still in use, and the number of
    replies is the number of fulfilled turns. *)
Theorem chat_attempts_transcript env0 (attempts : list Attempt) :
  Forall attempt_well_formed attempts ->
  chatMessages (app (run (mount env0) (concat (map attempt_events attempts))))
    = concat (map attempt_entries attempts)
  /\ isTyping (app (run (mount env0) (concat (map attempt_events attempts)))) = false
  /\ chatInFlight (run (mount env0) (concat (map attempt_events attempts))) = 0
  /\ replies (chatMessages
                (app (run (mount env0) (concat (map attempt_events attempts)))))
     = length (filter (fun t => attempt_succeeded t = true) attempts)
  /\ user_texts (chatMessages
                   (app (run (mount env0) (concat (map attempt_events attempts)))))
     = map (fun t => Some (attempt_message t)) attempts
  /\ (forall t rest,
      attempts = t :: rest ->
      chatInstance (app (run (mount env0) (concat (map attempt_events attempts))))
      = Some {| chat_model := MODEL;
                chat_systemInstruction := system_instruction (attempt_env t) |}).
Proof.
  intros Hall.
  destruct (run_attempts (mount env0) attempts eq_refl Hall) as (Hm & Hty & Hfl & Hc).
  rewrite Hm, Hty, Hfl. simpl.
  split; [done|]. split; [done|]. split; [done|]. split; [|split; [|apply Hc]].
  - clear. induction attempts as [|t attempts IH]; [done|].
    cbn [map concat]. rewrite replies_app, IH.
    unfold attempt_entries. destruct (attempt_outcome t) eqn:E.
    + rewrite filter_cons_True by (unfold attempt_succeeded; by rewrite E). done.
    + rewrite filter_cons_False by (unfold attempt_succeeded; by rewrite E). done.
  - clear. induction attempts as [|t attempts IH]; [done|].
    cbn [map concat]. rewrite user_texts_app, IH.
    unfold attempt_entries. by destruct (attempt_outcome t).
Qed.

(** X12. The send button and the handler agree.  When the button is
    disabled (a reply is awaited, or the input is blank) [handleChat] does
    nothing, so the Enter key cannot get around the button.  When it is
    enabled, a submission appends the user's entry, sends the raw input (not
    trimmed) in one [sendMessage], clears the input and disables the button.
    A key other than Enter does nothing. *)
Theorem send_button_matches_handler env (w : World) :
  (send_disabled (app w) = true ->
   handleChat env w = w /\ onKeyDown "Enter" env w = w)
  /\ (send_disabled (app w) = false ->
      chatMessages (app (onKeyDown "Enter" env w))
        = chatMessages (app w) ++ [{| role := user; text := Some (input (app w)) |}]
      /\ messages_sent (log (onKeyDown "Enter" env w))
         = messages_sent (log w) ++ [input (app w)]
      /\ input (app (onKeyDown "Enter" env w)) = ""
      /\ send_disabled (app (onKeyDown "Enter" env w)) = true)
  /\ (forall key, key <> "Enter" -> onKeyDown key env w = w).
Proof.
  unfold send_disabled. split; [|split].
  - intros H. change (onKeyDown "Enter" env w) with (handleChat env w).
    assert (Hw : handleChat env w = w); [|by rewrite Hw].
    destruct (isTyping (app w)) eqn:Hty; [by apply handleChat_typing|].
    simpl in H. apply handleChat_blank.
    by destruct (trim (input (app w))).
  - intros H. change (onKeyDown "Enter" env w) with (handleChat env w).
    apply orb_false_elim in H as [Hty Hin]. apply negb_false_iff in Hin.
    destruct (handleChat_accepted toISOString toLocaleDateString toLocaleTimeString
                env w Hin Hty) as (-> & -> & -> & _ & _ & _ & _ & ->).
    rewrite !messages_sent_app. simpl.
    split; [done|]. split; [|done]. by destruct (chatInstance (app w)).
  - intros key Hkey. unfold onKeyDown. apply String.eqb_neq in Hkey. by rewrite Hkey.
Qed.

(** *** The report *)

Lemma append_cons a (s t : string) : String a s +:+ t = String a (s +:+ t).
Proof. reflexivity. Qed.

Lemma length_append (s t : string) :
  String.length (s +:+ t) = String.length s + String.length t.
Proof.
  induction s as [|a s IH]; [done|]. rewrite append_cons. simpl. by rewrite IH.
Qed.

Lemma append_inj_r (s1 s2 t : string) : s1 +:+ t = s2 +:+ t -> s1 = s2.
Proof.
  revert s2. induction s1 as [|a s1 IH]; intros [|b s2] H.
  - done.
  - apply (f_equal String.length) in H. rewrite !length_append in H. simpl in H. lia.
  - apply (f_equal String.length) in H. rewrite !length_append in H. simpl in H. lia.
  - rewrite !append_cons in H. injection H as -> H. by rewrite (IH s2 H).
Qed.

Lemma of_Z_inj (a b : Z) : of_Z a = of_Z b -> a = b.
Proof.
  intros H. pose proof (of_Z_reads_back a) as Ha. rewrite H, of_Z_reads_back in Ha.
  by injection Ha.
Qed.

Lemma report_filename_inj env1 env2 :
  report_filename env1 = report_filename env2 <-> now env1 = now env2.
Proof.
  unfold report_filename. split; [|by intros ->].
  intros H. apply String.app_inj in H. apply append_inj_r in H. by apply of_Z_inj.
Qed.

(** X13. Exporting is repeatable and harmless: two exports of an unchanged
    list offer the same bytes under the same MIME type, the page is not
    changed by either, and the two file names are equal exactly when the
    exports happen in the same millisecond. *)
Theorem exportCSV_is_repeatable env1 env2 (w : World) :
  log (exportCSV env2 (exportCSV env1 w))
    = log w ++ [ Download (report_filename env1) "text/csv" (csv_of (news (app w)));
                 Download (report_filename env2) "text/csv" (csv_of (news (app w))) ]
  /\ app (exportCSV env2 (exportCSV env1 w)) = app w
  /\ newsInFlight (exportCSV env2 (exportCSV env1 w)) = newsInFlight w
  /\ chatInFlight (exportCSV env2 (exportCSV env1 w)) = chatInFlight w
  /\ (report_filename env1 = report_filename env2 <-> now env1 = now env2).
Proof.
  split; [|split; [done|split; [done|split; [done|apply report_filename_inj]]]].
  unfold exportCSV, emit. simpl. by rewrite <- app_assoc.
Qed.

Lemma occurrences_append c (s t : string) :
  occurrences c (s +:+ t) = occurrences c s + occurrences c t.
Proof.
  induction s as [|a s IH]; [done|]. rewrite append_cons. simpl. rewrite IH. lia.
Qed.

Lemma occurrences_cons c a (s : string) :
  occurrences c (String a s) = (if Ascii.eqb a c then 1 else 0) + occurrences c s.
Proof. reflexivity. Qed.

Lemma occurrences_other c a (s : string) :
  c <> a -> occurrences c (String a s) = occurrences c s.
Proof.
  intros H. rewrite occurrences_cons.
  destruct (Ascii.eqb_spec a c) as [->|_]; [done|reflexivity].
Qed.

Lemma occurrences_same c (s : string) :
  occurrences c (String c s) = S (occurrences c s).
Proof. rewrite occurrences_cons. by rewrite Ascii.eqb_refl. Qed.

Lemma comma_not_quote : comma <> byte 34.
Proof. vm_compute. intros H. discriminate H. Qed.

Lemma line_feed_not_comma : line_feed <> comma.
Proof. vm_compute. intros H. discriminate H. Qed.

Lemma line_feed_not_quote : line_feed <> byte 34.
Proof. vm_compute. intros H. discriminate H. Qed.

Lemma split_at_length sep (s : string) :
  length (split_at sep s) = S (occurrences sep s).
Proof.
  induction s as [|a s IH]; [done|]. simpl.
  destruct (Ascii.eqb a sep); simpl; [by rewrite IH|].
  destruct (split_at sep s); simpl in *; lia.
Qed.

Lemma split_at_free sep (s : string) :
  occurrences sep s = 0 -> split_at sep s = [s].
Proof.
  induction s as [|a s IH]; [done|]. simpl.
  destruct (Ascii.eqb a sep); [done|]. intros H. by rewrite (IH H).
Qed.

Lemma split_at_append sep (s t : string) :
  occurrences sep s = 0 ->
  split_at sep (s +:+ String sep t) = s :: split_at sep t.
Proof.
  induction s as [|a s IH]; intros H.
  - simpl. by rewrite Ascii.eqb_refl.
  - rewrite append_cons. simpl in *.
    destruct (Ascii.eqb a sep); [done|]. by rewrite (IH H).
Qed.

Lemma report_line_cells (n : NewsItem) :
  report_line n
  = (dquote +:+ title n +:+ dquote)
    +:+ String comma (category n
    +:+ String comma ((if isVerified n then "YES" else "NO")
    +:+ String comma (timestamp n
    +:+ String comma (url n)))).
Proof. unfold report_line. by rewrite !append_assoc. Qed.

Lemma occurrences_in_line c (n : NewsItem) :
  c <> comma -> c <> byte 34 ->
  occurrences c (report_line n)
  = occurrences c (title n) + occurrences c (category n)
    + occurrences c (timestamp n) + occurrences c (url n)
    + occurrences c (if isVerified n then "YES" else "NO").
Proof.
  intros Hc Hq.
  rewrite report_line_cells. unfold dquote.
  repeat first [ rewrite occurrences_append
               | rewrite (occurrences_other c comma) by done
               | rewrite (occurrences_other c (byte 34)) by done ].
  change (occurrences c "") with 0. lia.
Qed.

Lemma split_lines (first : string) (rest : list string) :
  occurrences line_feed first = 0 ->
  Forall (fun l => occurrences line_feed l = 0) rest ->
  split_at line_feed (String.concat nl (first :: rest)) = first :: rest.
Proof.
  intros Hf Hrest. revert first Hf.
  induction Hrest as [|l rest Hl _ IH]; intros first Hf.
  - simpl. by apply split_at_free.
  - change (String.concat nl (first :: l :: rest))
      with (first +:+ String line_feed (String.concat nl (l :: rest))).
    rewrite split_at_append by done. by rewrite IH.
Qed.

(** X14. The report reads back when the fields are plain: if no title,
    category, timestamp or URL of the displayed items contains a comma or a
    line feed, then cutting the exported text at line feeds and each line at
    commas gives back the header cells followed, item by item, by the quoted
    title, the category, [YES] or [NO], the timestamp and the URL. *)
Theorem csv_reads_back (objects : list (gmap string json)) (items : list NewsItem) :
  Forall2 shows objects items ->
  Forall (free_of comma) items ->
  Forall (free_of line_feed) items ->
  map (split_at comma) (split_at line_feed (csv_of objects))
  = ["Title"; "Category"; "Verified"; "Time"; "URL"] :: map report_cells items.
Proof.
  intros Hshow Hcomma Hnl. rewrite (csv_of_typed objects items Hshow).
  rewrite split_lines.
  - cbn [map]. f_equal. rewrite List.map_map. apply map_ext_in.
    intros n Hn. rewrite Forall_forall in Hcomma.
    apply list_elem_of_In in Hn.
    destruct (Hcomma n Hn) as (Ht & Hc & Hts & Hu).
    rewrite report_line_cells. unfold report_cells.
    rewrite split_at_append.
    2: { rewrite !occurrences_append, Ht. reflexivity. }
    rewrite split_at_append by done.
    rewrite split_at_append by (by destruct (isVerified n)).
    rewrite split_at_append by done. by rewrite split_at_free.
  - reflexivity.
  - apply Forall_forall. intros l Hl. apply list_elem_of_fmap in Hl as (n & -> & Hn).
    rewrite Forall_forall in Hnl. destruct (Hnl n Hn) as (Ht & Hc & Hts & Hu).
    rewrite occurrences_in_line
      by first [apply line_feed_not_comma | apply line_feed_not_quote].
    rewrite Ht, Hc, Hts, Hu. by destruct (isVerified n).
Qed.

(** X15. The exporter escapes nothing: a line of the report has five cells
    plus one for every comma inside the item's title, category, timestamp or
    URL, and the report has one line for the header, one per item, plus one
    for every line feed inside those fields. *)
Theorem csv_separators_are_not_escaped
    (objects : list (gmap string json)) (items : list NewsItem) o n :
  Forall2 shows objects items ->
  shows o n ->
  length (split_at comma (Js.join "," (csv_row o)))
    = 5 + occurrences comma (title n) + occurrences comma (category n)
      + occurrences comma (timestamp n) + occurrences comma (url n)
  /\ length (split_at line_feed (csv_of objects))
     = 1 + length items
       + list_sum
           (map (fun n => occurrences line_feed (title n)
                          + occurrences line_feed (category n)
                          + occurrences line_feed (timestamp n)
                          + occurrences line_feed (url n)) items).
Proof.
  intros Hshow Hon. split.
  - rewrite (csv_row_typed o n Hon), split_at_length, report_line_cells.
    unfold dquote.
    repeat first [ rewrite occurrences_append
                 | rewrite (occurrences_same comma)
                 | rewrite (occurrences_other comma (byte 34)) by apply comma_not_quote ].
    change (occurrences comma "") with 0.
    destruct (isVerified n);
      [change (occurrences comma "YES") with 0|change (occurrences comma "NO") with 0];
      lia.
  - rewrite (csv_of_typed objects items Hshow), split_at_length. clear.
    assert (Hgen : forall first,
      occurrences line_feed (String.concat nl (first :: map report_line items))
      = occurrences line_feed first + length items
        + list_sum
            (map (fun n => occurrences line_feed (title n)
                           + occurrences line_feed (category n)
                           + occurrences line_feed (timestamp n)
                           + occurrences line_feed (url n)) items)).
    { induction items as [|n items IH]; intros first.
      - simpl. lia.
      - change (String.concat nl (first :: map report_line (n :: items)))
          with (first +:+ String line_feed
                  (String.concat nl (report_line n :: map report_line items))).
        rewrite occurrences_append, (occurrences_same line_feed), IH.
        rewrite occurrences_in_line
          by first [apply line_feed_not_comma | apply line_feed_not_quote].
        destruct (isVerified n);
          [change (occurrences line_feed "YES") with 0
          |change (occurrences line_feed "NO") with 0];
          simpl; lia. }
    rewrite Hgen. simpl. lia.
Qed.

(** X16. The badge and the report agree on every displayed object, typed
    or not: the card shows the verified badge exactly when the report says
    [YES].  What decides is the truthiness of [isVerified]: a missing field,
    [null], [false], the empty string or [0] give the pending badge and [NO];
    any other value, the string [false] included, gives the verified badge
    and [YES]. *)
Theorem badge_agrees_with_report (o : gmap string json) (labels : Locale.Labels) :
  (NewsCard_badge o labels = (Emerald, Locale.verified labels)
   /\ csv_verified_cell o = Some (Some (JStr "YES"))
   /\ Js.truthy (o !! "isVerified") = true)
  \/ (NewsCard_badge o labels = (AmberPulsing, Locale.pending labels)
      /\ csv_verified_cell o = Some (Some (JStr "NO"))
      /\ (o !! "isVerified" = None \/ o !! "isVerified" = Some JNull
          \/ o !! "isVerified" = Some (JBool false)
          \/ o !! "isVerified" = Some (JStr "")
          \/ o !! "isVerified" = Some (JNum "0"))).
Proof.
  unfold NewsCard_badge, Badge, csv_verified_cell, csv_row. simpl.
  destruct (o !! "isVerified") as [[|[]|shown|s|items|props]|] eqn:E; simpl; auto 10.
  - destruct (String.eqb shown "0") eqn:Hs; simpl; [|auto].
    apply String.eqb_eq in Hs as ->. auto 10.
  - destruct s; simpl; auto 10.
Qed.

(** *** Localization and headings *)

Lemma before_hyphen_free (s : string) :
  occurrences "-"%char s = 0 -> Locale.before_hyphen s = s.
Proof.
  induction s as [|a s IH]; [done|]. rewrite occurrences_cons. simpl.
  destruct (Ascii.eqb a "-"); [done|]. intros H. by rewrite (IH H).
Qed.

Lemma before_hyphen_region (lang region : string) :
  occurrences "-"%char lang = 0 ->
  Locale.before_hyphen (lang +:+ "-" +:+ region) = lang.
Proof.
  induction lang as [|a lang IH]; [done|].
  rewrite occurrences_cons, append_cons. simpl.
  destruct (Ascii.eqb a "-"); [done|]. intros H. by rewrite (IH H).
Qed.

(** X17. The interface language depends only on the part of
    [navigator.language] before the first hyphen, compared exactly: [es]
    gives the Spanish bundle, and every other tag (English, any other
    language, [ES] in capitals, the empty tag) gives the English bundle,
    unless that part happens to name a property inherited from
    [Object.prototype], in which case the inherited value is returned in
    place of a bundle. *)
Theorem getLocale_falls_back_to_english
    (Object_prototype_has : string -> bool) (language : string) :
  (Locale.before_hyphen language = "es" ->
   Locale.getLocale Object_prototype_has language = Locale.Own Locale.es)
  /\ (Locale.before_hyphen language <> "es" ->
      Object_prototype_has (Locale.before_hyphen language) = false ->
      Locale.getLocale Object_prototype_has language = Locale.Own Locale.en)
  /\ (Locale.before_hyphen language <> "es" ->
      Locale.before_hyphen language <> "en" ->
      Object_prototype_has (Locale.before_hyphen language) = true ->
      Locale.getLocale Object_prototype_has language
      = Locale.Inherited (Locale.before_hyphen language))
  /\ (forall region,
      occurrences "-"%char language = 0 ->
      Locale.getLocale Object_prototype_has (language +:+ "-" +:+ region)
      = Locale.getLocale Object_prototype_has language).
Proof.
  unfold Locale.getLocale, Locale.TRANSLATIONS. repeat split.
  - by intros ->.
  - intros Hes Hinh. rewrite lookup_insert_ne by done.
    destruct (decide (Locale.before_hyphen language = "en")) as [->|Hen]; [done|].
    rewrite lookup_insert_ne by done. by rewrite lookup_empty, Hinh.
  - intros Hes Hen Hinh. rewrite !lookup_insert_ne by done.
    by rewrite lookup_empty, Hinh.
  - intros region Hfree.
    by rewrite (before_hyphen_region _ _ Hfree), (before_hyphen_free _ Hfree).
Qed.

Lemma selectedCategory_step (w : World) e :
  from_category_button e ->
  selectedCategory (app w) ∈ CATEGORY_LIST ->
  selectedCategory (app (step w e)) ∈ CATEGORY_LIST.
Proof.
  intros He Hw. destruct e; page_cases; done.
Qed.

Lemma selectedCategory_run (w : World) (events : list Event) :
  Forall from_category_button events ->
  selectedCategory (app w) ∈ CATEGORY_LIST ->
  selectedCategory (app (run w events)) ∈ CATEGORY_LIST.
Proof.
  intros Hall. revert w. induction Hall as [|e events He _ IH]; intros w Hw; [done|].
  apply (IH (step w e)). by apply selectedCategory_step.
Qed.

Lemma category_label_defined (locale : Locale.Bundle) cat :
  locale = Locale.es \/ locale = Locale.en ->
  cat ∈ CATEGORY_LIST ->
  exists label,
    Locale.categories locale !! cat = Some label
    /\ label <> ""
    /\ Locale.category_label locale cat = label.
Proof.
  intros Hl Hcat. unfold CATEGORY_LIST in Hcat.
  assert (Hcases : locale = Locale.es \/ locale = Locale.en) by done. clear Hl.
  repeat (apply elem_of_cons in Hcat as [->|Hcat]);
    try (by apply elem_of_nil in Hcat);
    destruct Hcases; subst locale;
    (eexists; split; [vm_compute; reflexivity|split; [done|vm_compute; reflexivity]]).
Qed.

(** X18. Every category has a label in both languages, so the fallback of
    a button to the raw category token is never used, and the buttons select
    exactly the eight categories in order.  As the selected category only
    ever comes from those buttons, it is always one of the eight, and the
    heading of the page is always a label: the selected category's in the
    news view, the chat title in the chat view. *)
Theorem headings_are_always_labelled env0 (events : list Event)
    (locale : Locale.Bundle) :
  locale = Locale.es \/ locale = Locale.en ->
  Forall from_category_button events ->
  map fst (Locale.category_buttons locale) = CATEGORY_LIST
  /\ (forall cat text,
      (cat, text) ∈ Locale.category_buttons locale ->
      Locale.categories locale !! cat = Some text /\ text <> "")
  /\ selectedCategory (app (run (mount env0) events)) ∈ CATEGORY_LIST
  /\ exists heading,
       header_title locale (app (run (mount env0) events)) = Some heading
       /\ heading <> "".
Proof.
  intros Hl Hev.
  assert (Hsel : selectedCategory (app (run (mount env0) events)) ∈ CATEGORY_LIST).
  { apply selectedCategory_run; [done|]. simpl. unfold CATEGORY_LIST. constructor. }
  split; [|split; [|split; [done|]]].
  - unfold Locale.category_buttons. rewrite List.map_map. reflexivity.
  - intros cat text Hin. unfold Locale.category_buttons in Hin.
    apply list_elem_of_fmap in Hin as (cat' & [= -> ->] & Hcat).
    destruct (category_label_defined locale cat' Hl Hcat) as (label & H1 & H2 & ->).
    done.
  - unfold header_title. destruct (activeView _).
    + destruct (category_label_defined locale _ Hl Hsel) as (label & H1 & H2 & _).
      by exists label.
    + destruct Hl as [-> | ->]; by eexists.
Qed.

(** X19. The full-page loading placeholder is shown on the first render
    and, on every state the page can reach, only while a retrieval is
    pending.  When the first retrieval fails the page is left with neither
    placeholder nor cards, and nothing but a console message records why. *)
Theorem loading_placeholder_needs_a_pending_call env0 (events : list Event) :
  loading_placeholder (app (mount env0)) = true
  /\ (loading_placeholder (app (run (mount env0) events)) = true ->
      1 <= newsInFlight (run (mount env0) events))
  /\ (forall env p,
      retrieval_fails JSON_parse p ->
      loading_placeholder (app (step (mount env0) (NewsSettled env p))) = false
      /\ news (app (step (mount env0) (NewsSettled env p))) = []
      /\ exists err,
           log (step (mount env0) (NewsSettled env p))
           = log (mount env0) ++ [ConsoleError "Critical news engine failure:" err]).
Proof.
  split; [done|]. split.
  - assert (Hacc : news_accounting (run (mount env0) events)).
    { apply run_invariant; [apply news_accounting_step|]. split; simpl; [done|lia]. }
    destruct Hacc as (Hload & _). unfold loading_placeholder.
    intros [Hl _]%andb_prop.
    destruct (newsInFlight (run (mount env0) events)); [|lia].
    rewrite Hload in Hl; done.
  - intros env p Hfail.
    destruct (fetchNews_try_fails JSON_parse p Hfail) as (err & Herr).
    destruct (step_news_settled (mount env0) env p) as (_ & Hl & _ & Hd); [done|].
    rewrite Herr in Hd. destruct Hd as (Hn & _ & Hlog).
    unfold loading_placeholder. rewrite Hl, Hn. split; [done|]. split; [done|].
    by exists err.
Qed.


End MoreProperties.


(** ** Closed instances of the further properties *)

Lemma fetchNews_non_array_is_caught_witness :
  news (app (Fixtures.step Sample.loaded (Refresh Sample.env))) = news (app Sample.loaded)
  /\ news (app (Fixtures.step (Fixtures.step Sample.loaded (Refresh Sample.env))
                  (NewsSettled Sample.env
                     (Js.Fulfilled (Sample.response (Some "{}") [])))))
     = news (app (Fixtures.step Sample.loaded (Refresh Sample.env))).
Proof.
  split; [reflexivity|].
  refine (proj1 (proj2 (fetchNews_non_array_is_caught
    Fixtures.JSON_parse Sample.toISOString Sample.toLocaleDateString
    Sample.toLocaleTimeString Sample.env (Sample.response (Some "{}") []) (JObj ∅)
    (Fixtures.step Sample.loaded (Refresh Sample.env)) eq_refl _ _))).
  - intros items H. discriminate H.
  - vm_compute. intros H. discriminate H.
Defined.

Lemma news_last_settlement_wins_witness :
  news (app (Fixtures.run Fixtures.two_pending
               [ NewsSettled Sample.env
                   (Js.Fulfilled (Sample.response (Some Sample.three_items_text) []));
                 NewsSettled Sample.env (Js.Fulfilled (Sample.response None [])) ]))
  = [].
Proof.
  refine (proj1 (proj2 (news_last_settlement_wins
    Fixtures.JSON_parse Sample.toISOString Sample.toLocaleDateString
    Sample.toLocaleTimeString Sample.env Sample.env
    (Sample.response (Some Sample.three_items_text) []) (Sample.response None [])
    Sample.three_items [] Fixtures.two_pending _ eq_refl eq_refl))).
  vm_compute. lia.
Defined.


Lemma chat_attempts_transcript_witness :
  chatMessages
    (app (Fixtures.run Sample.mount
            (concat (map attempt_events Fixtures.failed_then_answered))))
  = [ {| role := user; text := Some "hola" |};
      {| role := user; text := Some " ¿sigues ahí? " |};
      {| role := model; text := Some "Sí." |} ].
Proof.
  refine (proj1 (chat_attempts_transcript
    Fixtures.JSON_parse Sample.toISOString Sample.toLocaleDateString
    Sample.toLocaleTimeString Sample.env Fixtures.failed_then_answered _)).
  repeat constructor.
Defined.

Lemma csv_reads_back_witness :
  map (split_at comma)
    (split_at line_feed (csv_of [NewsItem_object Sample.item]))
  = [ ["Title"; "Category"; "Verified"; "Time"; "URL"];
      [ dquote +:+ "Rates held" +:+ dquote; "Economía"; "YES";
        "2024-01-01T10:00:00Z"; "https://n.example/1" ] ].
Proof.
  refine (csv_reads_back [NewsItem_object Sample.item] [Sample.item] _ _ _);
    repeat constructor.
Defined.

Lemma csv_separators_are_not_escaped_witness :
  length (split_at comma (Js.join "," (csv_row (NewsItem_object Fixtures.headline))))
  = 6.
Proof.
  refine (proj1 (csv_separators_are_not_escaped
    [NewsItem_object Fixtures.headline] [Fixtures.headline]
    (NewsItem_object Fixtures.headline) Fixtures.headline _ _));
    repeat constructor.
Defined.

Lemma headings_are_always_labelled_witness :
  exists heading,
    header_title Locale.en
      (app (Fixtures.run Sample.mount [SelectCategory Sample.env "Salud"]))
    = Some heading
    /\ heading <> "".
Proof.
  refine (proj2 (proj2 (proj2 (headings_are_always_labelled
    Fixtures.JSON_parse Sample.toISOString Sample.toLocaleDateString
    Sample.toLocaleTimeString Sample.env [SelectCategory Sample.env "Salud"]
    Locale.en (or_intror eq_refl) _)))).
  repeat constructor.
Defined.

